(** * gcs-deployer: the configuration store and the deployment tool handlers

    A shallow embedding of [src/config.ts] (class [ConfigManager]) and of
    [src/gcs-deploy.ts] (class [GcsDeployServer]), followed by the
    properties of the specification that are stated about them.

    Conventions of the embedding.
    - A JavaScript value that can come out of [JSON.parse] is a [json];
      a [value] is a [json] or [undefined].  Numbers are the integers that
      JavaScript holds exactly and prints in full (below [2^53] in
      magnitude); their truthiness and their decimal printing are all
      that is observed.  A string is held as the bytes of its UTF-8
      encoding; [substring] is only applied to ASCII text.
    - An object literal built by the code (its properties may hold
      [undefined]) is a [gmap string value]; the object spread is the
      left-biased union of such maps.
    - The text of the configuration file is represented by what
      [JSON.parse] does on it: it throws, or it returns a [json].
      [JSON.stringify] followed by [JSON.parse] is the identity on an object
      whose [undefined] properties have been dropped.
    - Tool arguments follow the declared [inputSchema]: every property that
      is present is a string.  The schema's [required] list is not enforced
      by the transport, and the arguments object itself may be absent.
    - Effects are explicit: a computation maps a [world] (the configuration
      directory, the trace of outside interactions, the number of random
      draws) to its outcome and the next world.  It settles, with a
      result or a thrown error, or it stays pending: a promise that
      nothing resolves or rejects.  The
      collaborators (child processes, object store, file system of the
      sources, [path], [mime]) are the fields of an [Env], as is the
      base-36 text of each random number: [Math.random().toString(36)]
      is [0] or [0.] followed by base-36 digits, and the code only takes
      a substring of it. *)

From Stdlib Require Import Ascii.
From stdpp Require Import gmap strings list pretty.

Set Warnings "-register-all".
Set Default Proof Using "Type".

(** The components of a pair are read at the types that the pair is
    expected to have. *)
Global Arguments pair {A B}%_type & a b.

(** ** JavaScript values *)

Module JS.

Inductive json : Type :=
| JNull
| JBool (b : bool)
| JNum (z : Z)
| JStr (s : string)
| JArr (items : list json)
| JObj (props : gmap string json).

(** [None] is [undefined]. *)
Abbreviation value := (option json).

Definition undefined : value := None.

(** ToBoolean. *)
Definition truthy (v : value) : bool :=
  match v with
  | None | Some JNull => false
  | Some (JBool b) => b
  | Some (JNum z) => negb (z =? 0)%Z
  | Some (JStr s) => negb (String.eqb s "")
  | Some (JArr _) | Some (JObj _) => true
  end.

(** ToString of a [json], as a template literal applies it.  A number is
    printed with all its digits, as JavaScript prints the integers that
    it holds exactly; larger ones are not covered. *)
Fixpoint show_json (j : json) : string :=
  match j with
  | JNull => "null"
  | JBool true => "true"
  | JBool false => "false"
  | JNum z => pretty z
  | JStr s => s
  | JArr items =>
      String.concat ","
        (map (λ x, match x with JNull => "" | _ => show_json x end) items)
  | JObj _ => "[object Object]"
  end.

Definition show (v : value) : string :=
  match v with
  | None => "undefined"
  | Some j => show_json j
  end.

(** The own enumerable properties that an object spread copies: those
    of an object, the indices of an array, the indices of a string (one
    per byte here). *)
Definition chars (s : string) : list json :=
  (λ c, JStr (String c "")) <$> String.list_ascii_of_string s.

Definition indexed (items : list json) : gmap string json :=
  list_to_map (imap (λ i x, (pretty i, x)) items).

Definition own_props (j : json) : gmap string json :=
  match j with
  | JObj props => props
  | JArr items => indexed items
  | JStr s => indexed (chars s)
  | JNull | JBool _ | JNum _ => ∅
  end.

(** An error object: its [code] and its [message]. *)
Record js_error : Type := Thrown {
  e_code : value;
  e_message : option string
}.

(** [new Error(message)] *)
Definition Error (message : string) : js_error :=
  {| e_code := undefined; e_message := Some message |}.

(** The engine's error for reading property [key] of [null] or
    [undefined] (V8 wording). *)
Definition TypeError_read (target key : string) : js_error :=
  Error ("Cannot read properties of " +:+ target +:+ " (reading '" +:+ key +:+ "')").

(** [error.message] inside a template literal. *)
Definition message_text (e : js_error) : string :=
  show (JStr <$> e_message e).

(** [s.includes(needle)] *)
Fixpoint includes (s needle : string) : bool :=
  String.prefix needle s
  || match s with
     | EmptyString => false
     | String _ rest => includes rest needle
     end.

(** [s.substring(from, to)] for [from <= to]. *)
Definition substring (from to : nat) (s : string) : string :=
  String.substring from (to - from) s.

(** The white space and the line terminators of the language, which
    [trim] removes.  Those of ASCII take one byte: U+0009 to U+000D and
    U+0020. *)
Definition is_space (c : ascii) : bool :=
  let n := nat_of_ascii c in ((n =? 32) || ((9 <=? n) && (n <=? 13)))%nat.

(** U+00A0, in two bytes. *)
Definition is_space2 (a b : ascii) : bool :=
  ((nat_of_ascii a =? 194) && (nat_of_ascii b =? 160))%nat.

(** U+1680, U+2000 to U+200A, U+2028, U+2029, U+202F, U+205F, U+3000 and
    U+FEFF, in three bytes. *)
Definition is_space3 (a b c : ascii) : bool :=
  let a := nat_of_ascii a in
  let b := nat_of_ascii b in
  let c := nat_of_ascii c in
  (((a =? 225) && (b =? 154) && (c =? 128))
   || ((a =? 226) && (b =? 128)
       && (((128 <=? c) && (c <=? 138)) || (c =? 168) || (c =? 169)
           || (c =? 175)))
   || ((a =? 226) && (b =? 129) && (c =? 159))
   || ((a =? 227) && (b =? 128) && (c =? 128))
   || ((a =? 239) && (b =? 187) && (c =? 191)))%nat.

(** The string without the white space it starts with; [backwards] when
    the bytes come last first. *)
Fixpoint strip (backwards : bool) (s : string) : string :=
  match s with
  | EmptyString => s
  | String a rest =>
      if is_space a then strip backwards rest
      else
        match rest with
        | EmptyString => s
        | String b rest2 =>
            if (if backwards then is_space2 b a else is_space2 a b)
            then strip backwards rest2
            else
              match rest2 with
              | EmptyString => s
              | String c rest3 =>
                  if (if backwards then is_space3 c b a else is_space3 a b c)
                  then strip backwards rest3
                  else s
              end
        end
  end.

Definition trimStart (s : string) : string := strip false s.

Definition trimEnd (s : string) : string :=
  String.rev (strip true (String.rev s)).

(** [s.trim()] *)
Definition trim (s : string) : string := trimEnd (trimStart s).

End JS.

Export JS.

(** ** The world the server runs in *)

Module World.

(** What the code does to the outside, in order. *)
Inductive event : Type :=
| ConsoleError (text : string) (detail : option js_error)
| ConsoleWarn (text : string)
| Spawn (command : string) (args : list string) (inherit_stdio : bool)
| Upload (bucket : value) (file destination cacheControl contentType : string)
| MakePublic (bucket : value) (destination : string).

(** The text of the configuration file, by what [JSON.parse] does on it. *)
Inductive file_text : Type :=
| Garbled (e : js_error)
| Encodes (j : json).

(** The configuration file: absent, there but refused by [readFileSync]
    with [e], or there with a text. *)
Inductive config_file : Type :=
| Missing
| Unreadable (e : js_error)
| Data (t : file_text).

Inductive config_dir : Type :=
| NoDir
| Dir (file : config_file).

(** How [writeFileSync] fails, when it does.  It opens the file with flag
    ['w'], which creates or truncates it, and then writes the data.  When
    the open fails, the file is as it was.  When a later step fails, the
    file holds [remains]: a part of the data, none of it at worst, or all of
    it. *)
Inductive write_error : Type :=
| OpenFails (e : js_error)
| WriteFails (e : js_error) (remains : file_text).

Definition thrown (fault : write_error) : js_error :=
  match fault with
  | OpenFails e | WriteFails e _ => e
  end.

(** The configuration directory, and whether [mkdirSync] and
    [writeFileSync] throw on it. *)
Record store : Type := Store {
  dir : config_dir;
  mkdir_fault : option js_error;
  write_fault : option write_error
}.

(** A path of the sources, as [statSync] and [readdirSync] see it. *)
Inductive node : Type :=
| File
| Special
| Directory (entries : list (string * node))
| Unlistable (e : js_error)
| NoStat (e : js_error).

(** A child process, by the events it emits: ['error'] if [c_error] is
    set (it could not be started), otherwise ['close'] with [c_code]
    after writing [c_stdout]. *)
Record child : Type := Child {
  c_error : option js_error;
  c_code : option Z;
  c_stdout : string
}.

(** A bucket handle of the object store; its answers may depend on all
    that happened before. *)
Record bucket : Type := Bucket {
  b_name : value;
  b_upload : list event → string → string → string → option js_error;
  b_makePublic : list event → string → option js_error
}.

Inductive result (A : Type) : Type :=
| Return (a : A)
| Throw (e : js_error).
Global Arguments Return {A} a.
Global Arguments Throw {A} e.

(** What a call comes to: it settles, or it stays pending for ever. *)
Inductive outcome (A : Type) : Type :=
| Settled (r : result A)
| Pending.
Global Arguments Settled {A} r.
Global Arguments Pending {A}.

Coercion Settled : result >-> outcome.

Record Env : Type := {
  (** the n-th [Math.random().toString(36)] *)
  random36 : nat → string;
  (** the injected [spawner] *)
  spawner : list event → string → list string → child;
  (** the injected [storage] *)
  storage_bucket : value → bucket;
  (** [fs.statSync] / [fs.readdirSync] on the sources *)
  fs_stat : string → node;
  (** [path.join(prefix, rest)] throws unless [prefix] is a string *)
  path_join : value → string → result string;
  path_join3 : string → string → string → string;
  path_basename : string → string;
  path_relative : string → string → string;
  (** [mime.lookup], [None] for [false] *)
  mime_lookup : string → option string
}.

Record world : Type := World {
  disk : store;
  trace : list event;
  draws : nat
}.

(** A computation: state passing, with exceptions that keep the state.
    What follows a computation that stays pending never runs. *)
Definition M (A : Type) : Type := world → outcome A * world.

Global Instance M_ret : MRet M := λ A a w, (Return a, w).
Global Instance M_bind : MBind M := λ A B f m w,
  match m w with
  | (Settled (Return a), w') => f a w'
  | (Settled (Throw e), w') => (Throw e, w')
  | (Pending, w') => (Pending, w')
  end.

Definition throw {A} (e : js_error) : M A := λ w, (Throw e, w).

(** [await] of a promise that nothing settles. *)
Definition pending {A} : M A := λ w, (Pending, w).

(** [try { body } catch (error) { handler error }] *)
Definition try_catch {A} (body : M A) (handler : js_error → M A) : M A := λ w,
  match body w with
  | (Settled (Return a), w') => (Return a, w')
  | (Settled (Throw e), w') => handler e w'
  | (Pending, w') => (Pending, w')
  end.

Definition emit (ev : event) : M unit := λ w,
  (Return (), World (disk w) (trace w ++ [ev]) (draws w)).

Definition lift {A} (r : result A) : M A := λ w, (r, w).

End World.

Export World.

(** ** [fs] on the configuration path ([CONFIG_DIR], [CONFIG_FILE]) *)

Module fs.

Definition ENOENT (syscall : string) : js_error :=
  {| e_code := Some (JStr "ENOENT");
     e_message := Some ("ENOENT: no such file or directory, " +:+ syscall) |}.

Definition existsSync_CONFIG_DIR : M bool := λ w,
  (Return match dir (disk w) with NoDir => false | Dir _ => true end, w).

Definition existsSync_CONFIG_FILE : M bool := λ w,
  (Return match dir (disk w) with
          | NoDir | Dir Missing => false
          | Dir (Unreadable _) | Dir (Data _) => true
          end, w).

Definition readFileSync_CONFIG_FILE : M file_text := λ w,
  match dir (disk w) with
  | Dir (Data t) => (Return t, w)
  | Dir (Unreadable e) => (Throw e, w)
  | NoDir | Dir Missing => (Throw (ENOENT "open"), w)
  end.

Definition set_dir (d : config_dir) (w : world) : world :=
  World (Store d (mkdir_fault (disk w)) (write_fault (disk w)))
        (trace w) (draws w).

(** [fs.mkdirSync(CONFIG_DIR, { recursive: true })] *)
Definition mkdirSync_CONFIG_DIR : M unit := λ w,
  match mkdir_fault (disk w) with
  | Some e => (Throw e, w)
  | None =>
      (Return (),
       match dir (disk w) with NoDir => set_dir (Dir Missing) w | Dir _ => w end)
  end.

(** [fs.writeFileSync(CONFIG_FILE, data)].  The file that a write leaves
    is one that [readFileSync] returns. *)
Definition writeFileSync_CONFIG_FILE (data : file_text) : M unit := λ w,
  match dir (disk w) with
  | NoDir => (Throw (ENOENT "open"), w)
  | Dir _ =>
      match write_fault (disk w) with
      | Some (OpenFails e) => (Throw e, w)
      | Some (WriteFails e remains) =>
          (Throw e, set_dir (Dir (Data remains)) w)
      | None => (Return (), set_dir (Dir (Data data)) w)
      end
  end.

End fs.

(** ** [JSON] *)

Module JSON.

Definition parse (data : file_text) : M json :=
  match data with
  | Garbled e => throw e
  | Encodes j => mret j
  end.

(** [JSON.stringify(obj, null, 2)] of an object literal: properties that
    hold [undefined] are left out. *)
Definition stringify (obj : gmap string value) : file_text :=
  Encodes (JObj (omap id obj)).

End JSON.

(** ** [src/config.ts] *)

Module ConfigManager.

(** [GcsDeployerConfig] as the code builds it: an object literal. *)
Abbreviation GcsDeployerConfig := (gmap string value).

Definition load : M json :=
  found ← try_catch
    (present ← fs.existsSync_CONFIG_FILE;
     if (present : bool) then
       data ← fs.readFileSync_CONFIG_FILE;
       parsed ← JSON.parse data;
       mret (Some parsed)
     else mret None)
    (λ error,
       emit (ConsoleError "Error loading config:" (Some error));;
       mret None);
  match found with
  | Some parsed => mret parsed
  | None => mret (JObj ∅)
  end.

(** [{ ...existing, ...config }] *)
Definition merge (existing : json) (config : GcsDeployerConfig)
  : gmap string value :=
  config ∪ (Some <$> own_props existing).

Definition save (config : GcsDeployerConfig) : M unit :=
  try_catch
    (present ← fs.existsSync_CONFIG_DIR;
     (if (present : bool) then mret () else fs.mkdirSync_CONFIG_DIR);;
     existing ← load;
     let newConfig := merge existing config in
     fs.writeFileSync_CONFIG_FILE (JSON.stringify newConfig))
    (λ error,
       emit (ConsoleError "Error saving config:" (Some error));;
       throw error).

(** [record.key]: reading a property of [null] throws.  [key] is one of
    the three configuration keys, which no prototype defines, so only an
    object can hold it. *)
Definition read (key : string) (record : json) : M value :=
  match record with
  | JNull => throw (TypeError_read "null" key)
  | JObj props => mret (props !! key)
  | JBool _ | JNum _ | JStr _ | JArr _ => mret undefined
  end.

Definition getBucket : M value := load ≫= read "bucketName".
Definition getProject : M value := load ≫= read "projectId".
Definition getSubfolder : M value := load ≫= read "subfolder".

End ConfigManager.

(** ** [src/gcs-deploy.ts] *)

Module GcsDeployServer.

(** [ErrorCode] of the protocol SDK. *)
Definition InvalidParams : Z := (-32602)%Z.
Definition MethodNotFound : Z := (-32601)%Z.

(** [new McpError(code, message)]: the constructor of the SDK puts the
    code in front of the message. *)
Definition McpError (code : Z) (message : string) : js_error :=
  {| e_code := Some (JNum code);
     e_message := Some ("MCP error " +:+ pretty code +:+ ": " +:+ message) |}.

Record request : Type := Request {
  name : string;
  arguments : option (gmap string string)
}.

(** [{ content: [{ type: 'text', text }], isError }] *)
Record response : Type := Response {
  text : string;
  isError : bool
}.

Definition nl : string := String (ascii_of_nat 10) "".
Definition dq : string := String (ascii_of_nat 34) "".

(** [args.key] *)
Definition arg (args : option (gmap string string)) (key : string)
  : M (option string) :=
  match args with
  | None => throw (TypeError_read "undefined" key)
  | Some given => mret (given !! key)
  end.

(** An argument as a JavaScript value. *)
Definition str (s : option string) : value := JStr <$> s.

Definition credentials_hint : string :=
  "Could not load the default credentials".
Definition anonymous_hint : string :=
  "Anonymous caller does not have storage.objects.create access".

Definition isAuthError (error : js_error) : bool :=
  match e_code error with Some (JNum code) => (code =? 401)%Z | _ => false end
  || match e_message error with
     | Some message =>
         truthy (Some (JStr message))
         && (includes message credentials_hint
             || includes message anonymous_hint)
     | None => false
     end.

Definition launched_message : string :=
  "Authentication was missing. I have launched the " +:+ dq +:+
  "gcloud auth application-default login" +:+ dq +:+
  " command in a new window. Please complete the login process there and then try this request again.".

Definition scopes : string :=
  "https://www.googleapis.com/auth/devstorage.full_control".

Definition unknown_identity : string :=
  "unknown (could not determine identity)".

Definition show_code (code : option Z) : string :=
  match code with Some z => pretty z | None => "null" end.

Section Server.

Context (env : Env).

(** [this.spawner(command, args, options)] *)
Definition spawn (command : string) (args : list string) (inherit : bool)
  : M child := λ w,
  (Return (spawner env (trace w) command args),
   World (disk w) (trace w ++ [Spawn command args inherit]) (draws w)).

(** The probe listens to ['close'] only.  When the child emits ['error']
    instead, nothing settles the promise: the event has no listener, and
    the emitter throws it outside the call. *)
Definition getCurrentIdentity : M string :=
  proc ← spawn "gcloud" ["config"; "get-value"; "account"] false;
  match c_error proc with
  | Some _ => pending
  | None =>
      match c_code proc with
      | Some 0%Z =>
          if truthy (Some (JStr (trim (c_stdout proc))))
          then mret (trim (c_stdout proc))
          else mret unknown_identity
      | _ => mret unknown_identity
      end
  end.

Definition attemptAutoAuth : M unit :=
  proc ← spawn "gcloud"
    ["auth"; "application-default"; "login"; "--scopes=" +:+ scopes] true;
  match c_error proc with
  | Some err => throw err
  | None =>
      match c_code proc with
      | Some 0%Z => mret ()
      | code => throw (Error ("gcloud exited with code " +:+ show_code code))
      end
  end.

(** [readdirSync] then, per entry, [statSync(...).isDirectory()]. *)
Fixpoint getAllFiles (dirPath : string) (at_path : node)
    (arrayOfFiles : list string) : result (list string) :=
  match at_path with
  | Directory entries =>
      (fix each (files : list (string * node)) (acc : list string)
         : result (list string) :=
         match files with
         | [] => Return acc
         | (file, entry) :: rest =>
             match entry with
             | NoStat e => Throw e
             | Directory _ | Unlistable _ =>
                 match getAllFiles (dirPath +:+ "/" +:+ file) entry acc with
                 | Return acc' => each rest acc'
                 | Throw e => Throw e
                 end
             | File | Special =>
                 each rest (acc ++ [path_join3 env dirPath "/" file])
             end
         end) entries arrayOfFiles
  | Unlistable e | NoStat e => Throw e
  | File | Special =>
      Throw {| e_code := Some (JStr "ENOTDIR");
               e_message := Some ("ENOTDIR: not a directory, scandir '"
                                  +:+ dirPath +:+ "'") |}
  end.

Definition uploadFile (target : bucket) (filePath destination : string)
  : M string :=
  let contentType :=
    match mime_lookup env filePath with
    | Some found =>
        if truthy (Some (JStr found)) then found else "application/octet-stream"
    | None => "application/octet-stream"
    end in
  (λ w,
     let w' := World (disk w)
       (trace w ++ [Upload (b_name target) filePath destination
                           "public, max-age=31536000" contentType])
       (draws w) in
     match b_upload target (trace w) filePath destination contentType with
     | Some e => (Throw e, w')
     | None => (Return (), w')
     end);;
  try_catch
    (λ w,
       let w' := World (disk w)
         (trace w ++ [MakePublic (b_name target) destination]) (draws w) in
       match b_makePublic target (trace w) destination with
       | Some e => (Throw e, w')
       | None => (Return (), w')
       end)
    (λ err,
       emit (ConsoleWarn ("Could not make file " +:+ destination +:+
         " explicitly public (might be uniform bucket access): " +:+
         message_text err)));;
  mret ("https://storage.googleapis.com/" +:+ show (b_name target) +:+ "/"
        +:+ destination).

(** The [for (const file of files)] loop of [deploy]. *)
Fixpoint upload_each (target : bucket) (sourcePath : string)
    (destinationPrefix : value) (files urls : list string)
  : M (list string) :=
  match files with
  | [] => mret urls
  | file :: rest =>
      let relativePath := path_relative env sourcePath file in
      destination ← lift (path_join env destinationPrefix relativePath);
      url ← uploadFile target file destination;
      upload_each target sourcePath destinationPrefix rest (urls ++ [url])
  end.

(** The [try] block of [deploy], entered with the [stats] of the source
    path ([statSync] has returned them, so they are not [NoStat]). *)
Definition transfer (target : bucket) (sourcePath : string)
    (destinationPrefix : value) (stats : node) : M (list string) :=
  match stats with
  | File =>
      destination ←
        lift (path_join env destinationPrefix (path_basename env sourcePath));
      url ← uploadFile target sourcePath destination;
      mret [url]
  | Directory _ | Unlistable _ =>
      files ← lift (getAllFiles sourcePath stats []);
      upload_each target sourcePath destinationPrefix files []
  | Special | NoStat _ =>
      throw (Error "sourcePath must be a file or directory")
  end.

(** The [catch (error)] block of [deploy]; its [if] block always throws. *)
Definition recover {A} (error : js_error) : M A :=
  (if isAuthError error then
     emit (ConsoleError
       "Authentication error detected. Attempting to launch gcloud auth..."
       None);;
     try_catch
       (attemptAutoAuth;;
        throw (Error launched_message))
       (λ authError,
          throw (Error ("Authentication failed and could not launch gcloud: "
                        +:+ message_text authError +:+ ". Original error: "
                        +:+ message_text error)))
   else mret ());;
  throw error.

Definition deploy (sourcePath : string) (bucketName destinationPrefix : value)
  : M (list string) :=
  let target := storage_bucket env bucketName in
  match fs_stat env sourcePath with
  | NoStat e => throw e
  | stats =>
      try_catch (transfer target sourcePath destinationPrefix stats) recover
  end.

(** [Math.random().toString(36).substring(2, 8)] *)
Definition randomId : M string := λ w,
  (Return (substring 2 8 (random36 env (draws w))),
   World (disk w) (trace w) (S (draws w))).

(** The "Sticky Subfolder Logic" of the [deploy_to_gcs] handler. *)
Definition stickySubfolder (destinationPrefix : value) : M value :=
  if truthy destinationPrefix then mret destinationPrefix
  else
    storedSubfolder ← ConfigManager.getSubfolder;
    if truthy storedSubfolder then mret storedSubfolder
    else
      token ← randomId;
      let generated := "site-" +:+ token in
      ConfigManager.save {[ "subfolder" := Some (JStr generated) ]};;
      emit (ConsoleError
        ("Generated and saved new default subfolder: " +:+ generated) None);;
      mret (Some (JStr generated)).

Definition missing_text (missingItems : list string) : string :=
  "GCS configuration missing: " +:+ String.concat ", " missingItems +:+
  ". " +:+ nl +:+ "Please run the " +:+ dq +:+ "configure_gcs" +:+ dq +:+
  " tool to set your Google Cloud Project ID and GCS Bucket Name.".

Definition preflight (sourcePath : string)
    (bucketName projectId : value) (identity : string)
    (finalDestinationPrefix : value) : string :=
  "Deploying '" +:+ sourcePath +:+ "' to bucket '" +:+ show bucketName +:+
  "' in project '" +:+ show projectId +:+ "' using identity '" +:+ identity
  +:+ "' (subfolder: '" +:+ show finalDestinationPrefix +:+ "')...".

Definition configure_gcs (args : option (gmap string string)) : M response :=
  bucketName ← arg args "bucketName";
  projectId ← arg args "projectId";
  subfolder ← arg args "subfolder";
  ConfigManager.save
    {[ "bucketName" := str bucketName;
       "projectId" := str projectId;
       "subfolder" := str subfolder ]};;
  mret {| text :=
            "Configuration saved for bucket '" +:+ show (str bucketName) +:+ "'"
            +:+ (if truthy (str projectId)
                 then " in project '" +:+ show (str projectId) +:+ "'" else "")
            +:+ (if truthy (str subfolder)
                 then " with subfolder '" +:+ show (str subfolder) +:+ "'"
                 else "")
            +:+ ".";
          isError := false |}.

(** The [deploy_to_gcs] handler from its [sourcePath] check on, with the
    parameters resolved before it. *)
Definition deployment (sourcePath : option string)
    (bucketName projectId finalDestinationPrefix : value) : M response :=
  if negb (truthy (str sourcePath)) then
    throw (McpError InvalidParams "Missing required argument: sourcePath")
  else
    let sourcePath := default "" sourcePath in
    let missingItems :=
      (if truthy bucketName then [] else ["bucketName"])
      ++ (if truthy projectId then [] else ["projectId"]) in
    if (0 <? length missingItems)%nat then
      mret {| text := missing_text missingItems; isError := true |}
    else
      try_catch
        (identity ← getCurrentIdentity;
         let preflightMsg :=
           preflight sourcePath bucketName projectId identity
                     finalDestinationPrefix in
         emit (ConsoleError preflightMsg None);;
         publicUrls ← deploy sourcePath bucketName finalDestinationPrefix;
         mret {| text :=
                   preflightMsg +:+ nl +:+ nl +:+
                   "Successfully deployed to GCS. Public URLs:" +:+ nl +:+
                   String.concat nl publicUrls;
                 isError := false |})
        (λ error,
           mret {| text := "Error deploying to GCS: " +:+ message_text error;
                   isError := true |}).

(** The [deploy_to_gcs] handler: the parameters are resolved first. *)
Definition deploy_to_gcs (args : option (gmap string string)) : M response :=
  sourcePath ← arg args "sourcePath";
  givenBucket ← arg args "bucketName";
  givenPrefix ← arg args "destinationPrefix";
  let destinationPrefix :=
    if truthy (str givenPrefix) then str givenPrefix else Some (JStr "") in
  bucketName ←
    (if truthy (str givenBucket) then mret (str givenBucket)
     else ConfigManager.getBucket);
  projectId ← ConfigManager.getProject;
  finalDestinationPrefix ← stickySubfolder destinationPrefix;
  deployment sourcePath bucketName projectId finalDestinationPrefix.

(** The [CallToolRequestSchema] handler. *)
Definition callTool (req : request) : M response :=
  if String.eqb (name req) "configure_gcs" then configure_gcs (arguments req)
  else if String.eqb (name req) "deploy_to_gcs"
  then deploy_to_gcs (arguments req)
  else throw (McpError MethodNotFound "Unknown tool").

End Server.

End GcsDeployServer.

(** * Vocabulary of the properties *)

Module Vocabulary.

(** [w] with [added] appended to its trace. *)
Definition logged (added : list event) (w : world) : world :=
  World (disk w) (trace w ++ added) (draws w).

(** What [ConfigManager.load] returns on a directory, and what it logs. *)
Definition held (d : config_dir) : json :=
  match d with
  | Dir (Data (Encodes j)) => j
  | NoDir | Dir Missing | Dir (Unreadable _) | Dir (Data (Garbled _)) => JObj ∅
  end.

Definition load_log (d : config_dir) : list event :=
  match d with
  | Dir (Unreadable e) | Dir (Data (Garbled e)) =>
      [ConsoleError "Error loading config:" (Some e)]
  | NoDir | Dir Missing | Dir (Data (Encodes _)) => []
  end.

(** [record.key] as a pure function, where it does not throw. *)
Definition field (key : string) (record : json) : value :=
  match record with
  | JObj props => props !! key
  | _ => undefined
  end.

(** The error with which a [ConfigManager.save] fails on a store, if any:
    [mkdirSync] is only called when the directory is absent. *)
Definition write_failure (d : store) : option js_error :=
  match dir d with
  | NoDir =>
      match mkdir_fault d with
      | Some e => Some e
      | None => thrown <$> write_fault d
      end
  | Dir _ => thrown <$> write_fault d
  end.

(** The directory after a [ConfigManager.save] that fails: [mkdirSync]
    may have created it, and [writeFileSync] may have opened the file. *)
Definition after_failure (d : store) : config_dir :=
  match dir d, mkdir_fault d, write_fault d with
  | NoDir, Some _, _ => NoDir
  | _, _, Some (WriteFails _ remains) => Dir (Data remains)
  | NoDir, None, _ => Dir Missing
  | Dir file, _, _ => Dir file
  end.

(** The child that the identity probe gets in [w]. *)
Definition probe_child (env : Env) (w : world) : child :=
  spawner env (trace w) "gcloud" ["config"; "get-value"; "account"].

(** The child of the identity probe closes, whenever the probe is
    started: it does not emit ['error']. *)
Definition probe_closes (env : Env) : Prop :=
  ∀ seen,
    c_error (spawner env seen "gcloud" ["config"; "get-value"; "account"])
    = None.

(** The record on disk after a successful [save config]. *)
Definition saved (d : config_dir) (config : gmap string value) : config_dir :=
  Dir (Data (JSON.stringify (ConfigManager.merge (held d) config))).

(** Calls that contact the object store. *)
Definition is_store_call (ev : event) : bool :=
  match ev with
  | Upload _ _ _ _ _ | MakePublic _ _ => true
  | ConsoleError _ _ | ConsoleWarn _ | Spawn _ _ _ => false
  end.

(** Calls that start a child process. *)
Definition is_spawn (ev : event) : bool :=
  match ev with
  | Spawn _ _ _ => true
  | _ => false
  end.

(** The identity probe and the login flow, as they appear in a trace. *)
Definition probe : event :=
  Spawn "gcloud" ["config"; "get-value"; "account"] false.

Definition login : event :=
  Spawn "gcloud"
    ["auth"; "application-default"; "login";
     "--scopes=" +:+ GcsDeployServer.scopes] true.

(** [needle] occurs in [s]. *)
Definition occurs (needle s : string) : Prop :=
  ∃ before after, s = before +:+ needle +:+ after.

(** The subfolder that the [deploy_to_gcs] handler generates in [w]. *)
Definition generated (env : Env) (w : world) : string :=
  "site-" +:+ substring 2 8 (random36 env (draws w)).

(** Console output only. *)
Definition is_console (ev : event) : bool :=
  match ev with
  | ConsoleError _ _ | ConsoleWarn _ => true
  | Spawn _ _ _ | Upload _ _ _ _ _ | MakePublic _ _ => false
  end.

(** The parameters that the [deploy_to_gcs] handler resolves from its
    arguments and the stored record. *)
Definition requested_prefix (given : gmap string string) : value :=
  if truthy (GcsDeployServer.str (given !! "destinationPrefix"))
  then GcsDeployServer.str (given !! "destinationPrefix")
  else Some (JStr "").

Definition resolved_bucket (given : gmap string string) (d : config_dir)
  : value :=
  if truthy (GcsDeployServer.str (given !! "bucketName"))
  then GcsDeployServer.str (given !! "bucketName")
  else field "bucketName" (held d).

Definition resolution_log (given : gmap string string) (d : config_dir)
  : list event :=
  (if truthy (GcsDeployServer.str (given !! "bucketName"))
   then [] else load_log d) ++ load_log d.

(** A computation that leaves the configuration directory and the count
    of random draws as they are. *)
Definition keeps_disk {A} (m : M A) : Prop :=
  ∀ w, disk (snd (m w)) = disk w ∧ draws (snd (m w)) = draws w.

(** A computation that settles, in every world. *)
Definition settles {A} (m : M A) : Prop :=
  ∀ w, ∃ r w', m w = (Settled r, w').

(** The error with which [deploy] rejects a source path that does not
    exist, or is neither a file nor a directory. *)
Definition source_error (env : Env) (path : string) : option js_error :=
  match fs_stat env path with
  | NoStat e => Some e
  | Special => Some (Error "sourcePath must be a file or directory")
  | File | Directory _ | Unlistable _ => None
  end.

(** The world after [recover] has announced the login flow, and the
    child that the flow turns out to be. *)
Definition announced (w : world) : world :=
  logged [ConsoleError
            "Authentication error detected. Attempting to launch gcloud auth..."
            None] w.

Definition login_flow (env : Env) (w : world) : child :=
  spawner env (trace (announced w)) "gcloud"
    ["auth"; "application-default"; "login";
     "--scopes=" +:+ GcsDeployServer.scopes].

(** The message that the [catch (authError)] block of [deploy] builds. *)
Definition launch_failure (reason original : string) : string :=
  "Authentication failed and could not launch gcloud: " +:+ reason +:+
  ". Original error: " +:+ original.

(** The object literal that the [configure_gcs] handler saves. *)
Definition configured_fields (given : gmap string string) : gmap string value :=
  {[ "bucketName" := GcsDeployServer.str (given !! "bucketName");
     "projectId" := GcsDeployServer.str (given !! "projectId");
     "subfolder" := GcsDeployServer.str (given !! "subfolder") ]}.

(** The pattern [site-[0-9a-z]{6}], on the whole string. *)
Definition base36 (c : ascii) : bool :=
  let n := nat_of_ascii c in
  (((48 <=? n) && (n <=? 57)) || ((97 <=? n) && (n <=? 122)))%nat.

Definition token_of (s : string) : string :=
  String.substring 5 (String.length s - 5) s.

Definition site_pattern (s : string) : bool :=
  String.prefix "site-" s
  && (String.length (token_of s) =? 6)%nat
  && forallb base36 (String.list_ascii_of_string (token_of s)).

(** The sticky-subfolder step has what it needs: a destination prefix is
    requested, or a subfolder is stored, or the store accepts the write
    of a generated one. *)
Definition prefix_available (prefix : value) (d : store) : Prop :=
  truthy prefix = true
  ∨ truthy (field "subfolder" (held (dir d))) = true
  ∨ write_failure d = None.

End Vocabulary.

(** * Sample worlds *)

Module Samples.

Import GcsDeployServer.

(** A bucket whose uploads fail with [fault], if any. *)
Definition sample_bucket (fault : option js_error) (name : value) : bucket :=
  {| b_name := name;
     b_upload := λ _ _ _ _, fault;
     b_makePublic := λ _ _, None |}.

Definition account : child :=
  {| c_error := None; c_code := Some 0%Z;
     c_stdout := "dev@example.com" +:+ nl |}.

(** One file, [/site/index.html]; [gcloud] knows the account, and its
    login flow ends as [flow]; every random draw prints as [drawn];
    uploads fail with [fault], if any. *)
Definition sample_env (drawn : string) (flow : child)
    (fault : option js_error) : Env :=
  {| random36 := λ _, drawn;
     spawner := λ _ _ args,
       match args with
       | "auth" :: _ => flow
       | _ => account
       end;
     storage_bucket := sample_bucket fault;
     fs_stat := λ path,
       if String.eqb path "/site/index.html" then File
       else NoStat (fs.ENOENT ("stat '" +:+ path +:+ "'"));
     path_join := λ prefix rest,
       match prefix with
       | Some (JStr p) => Return (p +:+ "/" +:+ rest)
       | _ => Throw {| e_code := Some (JStr "ERR_INVALID_ARG_TYPE");
                       e_message := Some "The path argument must be of type string" |}
       end;
     path_join3 := λ a b c, a +:+ b +:+ c;
     path_basename := λ _, "index.html";
     path_relative := λ _ file, file;
     mime_lookup := λ _, Some "text/html" |}.

Definition login_done : child :=
  {| c_error := None; c_code := Some 0%Z; c_stdout := "" |}.

Definition login_refused : child :=
  {| c_error := None; c_code := Some 1%Z; c_stdout := "" |}.

Definition laptop : Env := sample_env "0.4fzyo82mvyr" login_done None.

(** No configuration directory yet. *)
Definition fresh : world :=
  {| disk := {| dir := NoDir; mkdir_fault := None; write_fault := None |};
     trace := []; draws := 0 |}.

(** A stored record with the given properties. *)
Definition holding (props : gmap string json) : world :=
  {| disk := {| dir := Dir (Data (Encodes (JObj props)));
                mkdir_fault := None; write_fault := None |};
     trace := []; draws := 0 |}.

Definition configured : world :=
  holding {[ "bucketName" := JStr "b1"; "projectId" := JStr "p1";
             "subfolder" := JStr "site-k3x9qa" ]}.

(** Sample faults of the object store and of the file system. *)
Definition unauthorized : js_error :=
  {| e_code := Some (JNum 401); e_message := Some "Unauthorized" |}.

Definition forbidden : js_error :=
  {| e_code := Some (JNum 403);
     e_message := Some "dev@example.com does not have storage.objects.create access" |}.

Definition read_only : js_error :=
  {| e_code := Some (JStr "EACCES");
     e_message := Some "EACCES: permission denied, open" |}.

(** A configuration directory that cannot be written to. *)
Definition locked : world :=
  {| disk := {| dir := Dir Missing; mkdir_fault := None;
                write_fault := Some (OpenFails read_only) |};
     trace := []; draws := 0 |}.

(** A child that could not be started. *)
Definition unstarted : child :=
  {| c_error := Some (fs.ENOENT "spawn /bin/sh"); c_code := None;
     c_stdout := "" |}.

(** The laptop without a shell to start [gcloud] in. *)
Definition shell_less : Env :=
  {| random36 := random36 laptop;
     spawner := λ _ _ _, unstarted;
     storage_bucket := storage_bucket laptop;
     fs_stat := fs_stat laptop;
     path_join := path_join laptop;
     path_join3 := path_join3 laptop;
     path_basename := path_basename laptop;
     path_relative := path_relative laptop;
     mime_lookup := mime_lookup laptop |}.

Definition no_space : js_error :=
  {| e_code := Some (JStr "ENOSPC");
     e_message := Some "ENOSPC: no space left on device, write" |}.

(** What [JSON.parse] throws on an empty text. *)
Definition cut_short : js_error :=
  {| e_code := undefined; e_message := Some "Unexpected end of JSON input" |}.

(** The configured store on a full disk: the file can be opened, and
    nothing can be written to it. *)
Definition full : world :=
  {| disk := {| dir := dir (disk configured); mkdir_fault := None;
                write_fault := Some (WriteFails no_space (Garbled cut_short)) |};
     trace := []; draws := 0 |}.

End Samples.

Export Vocabulary.

(** * [scripts/package.js] *)

Module PackageScript.

(** [s.split('=')] *)
Fixpoint split_eq (s : string) : list string :=
  match s with
  | EmptyString => [EmptyString]
  | String c rest =>
      if Ascii.eqb c "=" then EmptyString :: split_eq rest
      else
        match split_eq rest with
        | [] => [String c EmptyString]
        | piece :: pieces => String c piece :: pieces
        end
  end.

(** [getArg]: [None] is [null]. *)
Definition getArg (args : list string) (name : string) : option string :=
  match List.find (String.prefix ("--" +:+ name +:+ "=")) args with
  | Some found => split_eq found !! 1
  | None => None
  end.

Definition name : string := "gcs-deployer".

(** [archiveName], from [platform] and [arch]. *)
Definition archiveName (platform arch : string) : string :=
  let archiveBaseName := platform +:+ "." +:+ arch +:+ "." +:+ name in
  if String.eqb platform "win32" then archiveBaseName +:+ ".zip"
  else archiveBaseName +:+ ".tar.gz".

(** The script up to the name of its archive: [None] when it prints its
    usage and exits with code 1. *)
Definition archive_of (args : list string) : option string :=
  let platform := getArg args "platform" in
  let arch := getArg args "arch" in
  if negb (truthy (JStr <$> platform)) || negb (truthy (JStr <$> arch))
  then None
  else Some (archiveName (default "" platform) (default "" arch)).

End PackageScript.

(** * Vocabulary of the traversal and of the uploads *)

Module Transfers.

(** Nothing at or below the node fails to stat or to list. *)
Fixpoint listable (n : node) : bool :=
  match n with
  | File | Special => true
  | Unlistable _ | NoStat _ => false
  | Directory entries => forallb (λ entry, listable entry.2) entries
  end.

(** The entries at or below the node that are not directories. *)
Fixpoint file_count (n : node) : nat :=
  match n with
  | File | Special => 1
  | Unlistable _ | NoStat _ => 0
  | Directory entries =>
      foldr (λ entry total, file_count entry.2 + total) 0 entries
  end.

(** The content type that [uploadFile] sends for a file. *)
Definition content_type (env : Env) (filePath : string) : string :=
  match mime_lookup env filePath with
  | Some found =>
      if truthy (Some (JStr found)) then found else "application/octet-stream"
  | None => "application/octet-stream"
  end.

Definition upload_event (env : Env) (target : bucket)
    (filePath destination : string) : event :=
  Upload (b_name target) filePath destination "public, max-age=31536000"
         (content_type env filePath).

Definition public_url (target : bucket) (destination : string) : string :=
  "https://storage.googleapis.com/" +:+ show (b_name target) +:+ "/"
  +:+ destination.

Definition is_upload (ev : event) : bool :=
  match ev with
  | Upload _ _ _ _ _ => true
  | _ => false
  end.

(** The file can be read back after a write: it is not one that
    [readFileSync] refuses. *)
Definition readable (d : config_dir) : Prop :=
  ∀ e, d ≠ Dir (Unreadable e).

(** [deploy_to_gcs] calls made one after the other. *)
Definition deploy_calls (env : Env) (calls : list (gmap string string))
    (w : world) : world :=
  foldl (λ now given,
           snd (GcsDeployServer.callTool env
                  (GcsDeployServer.Request "deploy_to_gcs" (Some given)) now))
        w calls.

(** What [uploadFile] does after a successful upload: it tries to make
    the object public and warns if that fails. *)
Definition make_public_log (target : bucket) (seen : list event)
    (destination : string) : list event :=
  MakePublic (b_name target) destination
  :: match b_makePublic target seen destination with
     | Some err =>
         [ConsoleWarn ("Could not make file " +:+ destination +:+
            " explicitly public (might be uniform bucket access): " +:+
            message_text err)]
     | None => []
     end.

(** A sample source tree: [a.txt] and [sub/b.txt]. *)
Definition sample_tree : node :=
  Directory [("a.txt", File); ("sub", Directory [("b.txt", File)])].

(** A bucket that takes the uploads of everything but [refused]. *)
Definition picky_bucket (refused : string) (fault : js_error) (name : value)
  : bucket :=
  {| b_name := name;
     b_upload := λ _ file _ _,
       if String.eqb file refused then Some fault else None;
     b_makePublic := λ _ _, Some fault |}.

(** The sample tree at [/site], its destinations joined with [/]. *)
Definition tree_env (store : value → bucket) : Env :=
  {| random36 := λ _, "0.4fzyo82mvyr";
     spawner := λ _ _ _, Samples.account;
     storage_bucket := store;
     fs_stat := λ path,
       if String.eqb path "/site" then sample_tree
       else NoStat (fs.ENOENT ("stat '" +:+ path +:+ "'"));
     path_join := λ prefix rest,
       match prefix with
       | Some (JStr p) => Return (p +:+ "/" +:+ rest)
       | _ => Throw {| e_code := Some (JStr "ERR_INVALID_ARG_TYPE");
                       e_message := Some "The path argument must be of type string" |}
       end;
     path_join3 := λ a b c, a +:+ b +:+ c;
     path_basename := λ path, path;
     path_relative := λ from file,
       String.substring (String.length from + 1)
                        (String.length file) file;
     mime_lookup := λ _, None |}.

End Transfers.

Export Transfers.

(** * Properties *)

(** ** Running computations *)

Section Running.

Context {A B : Type}.

Lemma run_bind (m : M A) (f : A → M B) (w : world) :
  (m ≫= f) w =
  match m w with
  | (Settled (Return a), w') => f a w'
  | (Settled (Throw e), w') => (Throw e, w')
  | (Pending, w') => (Pending, w')
  end.
Proof. reflexivity. Qed.

Lemma run_bind_return (m : M A) (f : A → M B) (w w' : world) (a : A) :
  m w = (Return a, w') → (m ≫= f) w = f a w'.
Proof. intros Hm. rewrite run_bind, Hm. reflexivity. Qed.

Lemma run_bind_throw (m : M A) (f : A → M B) (w w' : world) (e : js_error) :
  m w = (Throw e, w') → (m ≫= f) w = (Throw e, w').
Proof. intros Hm. rewrite run_bind, Hm. reflexivity. Qed.

Lemma run_try_return (m : M A) (h : js_error → M A) (w w' : world) (a : A) :
  m w = (Return a, w') → try_catch m h w = (Return a, w').
Proof. intros Hm. unfold try_catch. rewrite Hm. reflexivity. Qed.

Lemma run_try_throw (m : M A) (h : js_error → M A) (w w' : world)
    (e : js_error) :
  m w = (Throw e, w') → try_catch m h w = h e w'.
Proof. intros Hm. unfold try_catch. rewrite Hm. reflexivity. Qed.

Lemma run_bind_pending (m : M A) (f : A → M B) (w w' : world) :
  m w = (Pending, w') → (m ≫= f) w = (Pending, w').
Proof. intros Hm. rewrite run_bind, Hm. reflexivity. Qed.

Lemma run_try_pending (m : M A) (h : js_error → M A) (w w' : world) :
  m w = (Pending, w') → try_catch m h w = (Pending, w').
Proof. intros Hm. unfold try_catch. rewrite Hm. reflexivity. Qed.

End Running.

Lemma logged_nil (w : world) : logged [] w = w.
Proof. destruct w. unfold logged. simpl. rewrite app_nil_r. reflexivity. Qed.

Lemma logged_logged (a b : list event) (w : world) :
  logged b (logged a w) = logged (a ++ b) w.
Proof. unfold logged. simpl. rewrite app_assoc. reflexivity. Qed.

(** ** The configuration store *)

Module ConfigFacts.

Import ConfigManager.

Lemma load_run (w : world) :
  load w = (Return (held (dir (disk w))), logged (load_log (dir (disk w))) w).
Proof.
  destruct w as [[d mf wf] t n]. unfold logged. simpl.
  destruct d as [|[|e|[e|j]]]; unfold load, try_catch; simpl;
    rewrite ?app_nil_r; reflexivity.
Qed.

Lemma read_run (key : string) (record : json) (w : world) :
  record ≠ JNull → read key record w = (Return (field key record), w).
Proof. destruct record; intros Hn; try reflexivity. congruence. Qed.

Lemma read_null (key : string) (w : world) :
  read key JNull w = (Throw (TypeError_read "null" key), w).
Proof. reflexivity. Qed.

Lemma project_run (key : string) (w : world) :
  held (dir (disk w)) ≠ JNull →
  (load ≫= read key) w =
  (Return (field key (held (dir (disk w)))),
   logged (load_log (dir (disk w))) w).
Proof.
  intros Hn. rewrite (run_bind_return _ _ _ _ _ (load_run w)).
  apply read_run, Hn.
Qed.

Lemma project_returns (key : string) (w : world) (v : value) :
  fst ((load ≫= read key) w) = Return v →
  held (dir (disk w)) ≠ JNull ∧ field key (held (dir (disk w))) = v.
Proof.
  rewrite (run_bind_return _ _ _ _ _ (load_run w)).
  destruct (held (dir (disk w))) eqn:Hh; simpl; intros Hv;
    try (split; congruence).
Qed.

Lemma save_run (config : GcsDeployerConfig) (w : world) :
  write_failure (disk w) = None →
  save config w =
  (Return (),
   fs.set_dir (saved (dir (disk w)) config)
              (logged (load_log (dir (disk w))) w)).
Proof.
  destruct w as [[d mf wf] t n]. unfold write_failure, saved, logged. simpl.
  intros Hw.
  assert (Hwf : wf = None).
  { destruct d; [destruct mf; [discriminate|]|];
      destruct wf; (discriminate || reflexivity). }
  subst wf.
  destruct d as [|[|e|[e|j]]]; [destruct mf; [discriminate|]|..];
    unfold load_log, fs.set_dir; simpl; rewrite ?app_nil_r; reflexivity.
Qed.

(** A [save] that fails throws the error of the failing step after
    logging it, and leaves the directory as that step left it. *)
Lemma save_fails (config : GcsDeployerConfig) (w : world) (e : js_error) :
  write_failure (disk w) = Some e →
  save config w =
  (Throw e,
   fs.set_dir (after_failure (disk w))
     (logged (load_log (dir (disk w))
              ++ [ConsoleError "Error saving config:" (Some e)]) w)).
Proof.
  destruct w as [[d mf wf] t n]. unfold write_failure, after_failure. simpl.
  intros Hw.
  destruct d as [|[|e'|[e'|j]]], mf as [e1|], wf as [[e0|e0 remains]|];
    try discriminate Hw; injection Hw as ->;
    cbv -[app]; rewrite <- ?app_assoc; reflexivity.
Qed.

(** Unless the write itself fails, with the file already opened, a
    failing [save] leaves the record as it was. *)
Lemma after_failure_held (d : store) :
  (∀ e remains, write_fault d ≠ Some (WriteFails e remains)) →
  held (after_failure d) = held (dir d).
Proof.
  destruct d as [d mf wf]. unfold after_failure. simpl. intros Hopen.
  destruct wf as [[e|e remains]|]; [|destruct (Hopen e remains eq_refl)|];
    destruct d as [|file], mf; reflexivity.
Qed.

(** When the write itself fails, the file holds what that left. *)
Lemma after_failure_remains (d : store) (e : js_error) (remains : file_text) :
  write_fault d = Some (WriteFails e remains) →
  (dir d = NoDir → mkdir_fault d = None) →
  write_failure d = Some e ∧ after_failure d = Dir (Data remains).
Proof.
  destruct d as [d mf wf]. unfold after_failure, write_failure. simpl.
  intros -> Hmkdir. destruct d as [|file].
  - rewrite (Hmkdir eq_refl). split; reflexivity.
  - destruct mf; split; reflexivity.
Qed.

(** A property of the saved record: [config] decides the keys it has
    (also those it sets to [undefined]); the others keep what they held. *)
Lemma saved_field (d : config_dir) (config : GcsDeployerConfig) (key : string) :
  field key (held (saved d config)) =
  match config !! key with
  | Some v => v
  | None => own_props (held d) !! key
  end.
Proof.
  unfold saved, JSON.stringify, merge. simpl.
  rewrite lookup_omap, lookup_union, lookup_fmap.
  destruct (config !! key) as [v|], (own_props (held d) !! key); reflexivity.
Qed.

Lemma saved_not_null (d : config_dir) (config : GcsDeployerConfig) :
  held (saved d config) ≠ JNull.
Proof. discriminate. Qed.

End ConfigFacts.

(** ** What a deployment leaves untouched *)

Module Frame.

Import GcsDeployServer.

Create HintDb frame discriminated.

Lemma keeps_disk_ret {A} (a : A) : keeps_disk (mret a).
Proof. intros w. split; reflexivity. Qed.

Lemma keeps_disk_throw {A} (e : js_error) : keeps_disk (@throw A e).
Proof. intros w. split; reflexivity. Qed.

Lemma keeps_disk_pending {A} : keeps_disk (@pending A).
Proof. intros w. split; reflexivity. Qed.

Lemma keeps_disk_lift {A} (r : result A) : keeps_disk (lift r).
Proof. intros w. split; reflexivity. Qed.

Lemma keeps_disk_emit (ev : event) : keeps_disk (emit ev).
Proof. intros w. split; reflexivity. Qed.

Lemma keeps_disk_bind {A B} (m : M A) (f : A → M B) :
  keeps_disk m → (∀ a, keeps_disk (f a)) → keeps_disk (m ≫= f).
Proof.
  intros Hm Hf w. rewrite run_bind. specialize (Hm w).
  destruct (m w) as [[[a|e]|] w1]; simpl in Hm.
  - destruct (Hf a w1) as [-> ->]. exact Hm.
  - exact Hm.
  - exact Hm.
Qed.

Lemma keeps_disk_try {A} (m : M A) (h : js_error → M A) :
  keeps_disk m → (∀ e, keeps_disk (h e)) → keeps_disk (try_catch m h).
Proof.
  intros Hm Hh w. unfold try_catch. specialize (Hm w).
  destruct (m w) as [[[a|e]|] w1]; simpl in Hm.
  - exact Hm.
  - destruct (Hh e w1) as [-> ->]. exact Hm.
  - exact Hm.
Qed.

Lemma keeps_disk_if {A} (b : bool) (m1 m2 : M A) :
  keeps_disk m1 → keeps_disk m2 → keeps_disk (if b then m1 else m2).
Proof. destruct b; auto. Qed.

#[export] Hint Resolve keeps_disk_ret keeps_disk_throw keeps_disk_pending
  keeps_disk_lift
  keeps_disk_emit keeps_disk_bind keeps_disk_try keeps_disk_if : frame.

Section Server.

Context (env : Env).

Lemma keeps_disk_spawn (command : string) (args : list string) (inherit : bool) :
  keeps_disk (spawn env command args inherit).
Proof. intros w. split; reflexivity. Qed.

Lemma keeps_disk_getCurrentIdentity : keeps_disk (getCurrentIdentity env).
Proof.
  unfold getCurrentIdentity. apply keeps_disk_bind; [apply keeps_disk_spawn|].
  intros proc. destruct (c_error proc); [auto with frame|].
  destruct (c_code proc) as [[| |]|]; auto with frame.
Qed.

Lemma keeps_disk_attemptAutoAuth : keeps_disk (attemptAutoAuth env).
Proof.
  unfold attemptAutoAuth. apply keeps_disk_bind; [apply keeps_disk_spawn|].
  intros proc. destruct (c_error proc); [auto with frame|].
  destruct (c_code proc) as [[| |]|]; auto with frame.
Qed.

Lemma keeps_disk_uploadFile (target : bucket) (filePath destination : string) :
  keeps_disk (uploadFile env target filePath destination).
Proof.
  unfold uploadFile. apply keeps_disk_bind.
  - intros w. destruct (b_upload _ _ _ _ _); split; reflexivity.
  - intros _. apply keeps_disk_bind; [|auto with frame].
    apply keeps_disk_try; [|auto with frame].
    intros w. destruct (b_makePublic _ _ _); split; reflexivity.
Qed.

Lemma keeps_disk_upload_each (target : bucket) (sourcePath : string)
    (prefix : value) (files urls : list string) :
  keeps_disk (upload_each env target sourcePath prefix files urls).
Proof.
  revert urls. induction files as [|file rest IH]; intros urls; simpl.
  - auto with frame.
  - apply keeps_disk_bind; [auto with frame|]. intros destination.
    apply keeps_disk_bind; [apply keeps_disk_uploadFile|]. intros url.
    apply IH.
Qed.

Lemma keeps_disk_transfer (target : bucket) (sourcePath : string)
    (prefix : value) (stats : node) :
  keeps_disk (transfer env target sourcePath prefix stats).
Proof.
  destruct stats; simpl; auto using keeps_disk_uploadFile,
    keeps_disk_upload_each with frame.
Qed.

Lemma keeps_disk_recover {A} (error : js_error) :
  keeps_disk (@recover env A error).
Proof.
  unfold recover. apply keeps_disk_bind; [|auto with frame].
  apply keeps_disk_if; [|auto with frame].
  apply keeps_disk_bind; [auto with frame|]. intros _.
  apply keeps_disk_try; [|auto with frame].
  apply keeps_disk_bind; [apply keeps_disk_attemptAutoAuth|auto with frame].
Qed.

Lemma keeps_disk_deploy (sourcePath : string) (bucketName prefix : value) :
  keeps_disk (deploy env sourcePath bucketName prefix).
Proof.
  unfold deploy.
  destruct (fs_stat env sourcePath) eqn:Hs; auto with frame;
    (apply keeps_disk_try;
     [apply keeps_disk_transfer | intros ?; apply keeps_disk_recover]).
Qed.

Lemma keeps_disk_deployment (sourcePath : option string)
    (bucketName projectId prefix : value) :
  keeps_disk (deployment env sourcePath bucketName projectId prefix).
Proof.
  unfold deployment. apply keeps_disk_if; [auto with frame|].
  cbv zeta. apply keeps_disk_if; [auto with frame|].
  apply keeps_disk_try; [|auto with frame].
  apply keeps_disk_bind; [apply keeps_disk_getCurrentIdentity|].
  intros identity. apply keeps_disk_bind; [auto with frame|]. intros _.
  apply keeps_disk_bind; [apply keeps_disk_deploy|auto with frame].
Qed.

End Server.

End Frame.

(** ** What always settles *)

Module Settling.

Import GcsDeployServer.

Create HintDb settling discriminated.

Lemma settles_ret {A} (a : A) : settles (mret a).
Proof. intros w. eexists _, _. reflexivity. Qed.

Lemma settles_throw {A} (e : js_error) : settles (@throw A e).
Proof. intros w. eexists _, _. reflexivity. Qed.

Lemma settles_lift {A} (r : result A) : settles (lift r).
Proof. intros w. eexists _, _. reflexivity. Qed.

Lemma settles_emit (ev : event) : settles (emit ev).
Proof. intros w. eexists _, _. reflexivity. Qed.

Lemma settles_bind {A B} (m : M A) (f : A → M B) :
  settles m → (∀ a, settles (f a)) → settles (m ≫= f).
Proof.
  intros Hm Hf w. rewrite run_bind.
  destruct (Hm w) as ([a|e] & w1 & ->).
  - apply Hf.
  - eexists _, _. reflexivity.
Qed.

Lemma settles_try {A} (m : M A) (h : js_error → M A) :
  settles m → (∀ e, settles (h e)) → settles (try_catch m h).
Proof.
  intros Hm Hh w. unfold try_catch.
  destruct (Hm w) as ([a|e] & w1 & ->).
  - eexists _, _. reflexivity.
  - apply Hh.
Qed.

Lemma settles_if {A} (b : bool) (m1 m2 : M A) :
  settles m1 → settles m2 → settles (if b then m1 else m2).
Proof. destruct b; auto. Qed.

#[export] Hint Resolve settles_ret settles_throw settles_lift settles_emit
  settles_bind settles_try settles_if : settling.

Section Server.

Context (env : Env).

Lemma settles_spawn (command : string) (args : list string) (inherit : bool) :
  settles (spawn env command args inherit).
Proof. intros w. eexists _, _. reflexivity. Qed.

(** The login flow listens to ['error'] and to ['close']. *)
Lemma settles_attemptAutoAuth : settles (attemptAutoAuth env).
Proof.
  unfold attemptAutoAuth. apply settles_bind; [apply settles_spawn|].
  intros proc. destruct (c_error proc); [auto with settling|].
  destruct (c_code proc) as [[| |]|]; auto with settling.
Qed.

Lemma settles_uploadFile (target : bucket) (filePath destination : string) :
  settles (uploadFile env target filePath destination).
Proof.
  unfold uploadFile. apply settles_bind.
  - intros w. destruct (b_upload _ _ _ _ _); eexists _, _; reflexivity.
  - intros _. apply settles_bind; [|auto with settling].
    apply settles_try; [|auto with settling].
    intros w. destruct (b_makePublic _ _ _); eexists _, _; reflexivity.
Qed.

Lemma settles_upload_each (target : bucket) (sourcePath : string)
    (prefix : value) (files urls : list string) :
  settles (upload_each env target sourcePath prefix files urls).
Proof.
  revert urls. induction files as [|file rest IH]; intros urls; simpl.
  - auto with settling.
  - apply settles_bind; [auto with settling|]. intros destination.
    apply settles_bind; [apply settles_uploadFile|]. intros url.
    apply IH.
Qed.

Lemma settles_transfer (target : bucket) (sourcePath : string)
    (prefix : value) (stats : node) :
  settles (transfer env target sourcePath prefix stats).
Proof.
  destruct stats; simpl; auto using settles_uploadFile,
    settles_upload_each with settling.
Qed.

Lemma settles_recover {A} (error : js_error) :
  settles (@recover env A error).
Proof.
  unfold recover. apply settles_bind; [|auto with settling].
  apply settles_if; [|auto with settling].
  apply settles_bind; [auto with settling|]. intros _.
  apply settles_try; [|auto with settling].
  apply settles_bind; [apply settles_attemptAutoAuth|auto with settling].
Qed.

(** [deploy] waits for the object store and for the login flow only. *)
Lemma settles_deploy (sourcePath : string) (bucketName prefix : value) :
  settles (deploy env sourcePath bucketName prefix).
Proof.
  unfold deploy.
  destruct (fs_stat env sourcePath) eqn:Hs; auto with settling;
    (apply settles_try;
     [apply settles_transfer | intros ?; apply settles_recover]).
Qed.

End Server.

End Settling.

(** ** The tool handlers *)

Module ServerFacts.

Import ConfigManager GcsDeployServer ConfigFacts.

Section Handlers.

Context (env : Env).

Lemma run_ret_bind {A B} (a : A) (f : A → M B) (w : world) :
  (mret a ≫= f) w = f a w.
Proof. reflexivity. Qed.

Lemma sticky_given (prefix : value) (w : world) :
  truthy prefix = true → stickySubfolder env prefix w = (Return prefix, w).
Proof. intros Hp. unfold stickySubfolder. rewrite Hp. reflexivity. Qed.

Lemma sticky_stored (prefix : value) (w : world) :
  truthy prefix = false →
  held (dir (disk w)) ≠ JNull →
  truthy (field "subfolder" (held (dir (disk w)))) = true →
  stickySubfolder env prefix w =
  (Return (field "subfolder" (held (dir (disk w)))),
   logged (load_log (dir (disk w))) w).
Proof.
  intros Hp Hn Hs. unfold stickySubfolder, getSubfolder. rewrite Hp.
  rewrite (run_bind_return _ _ _ _ _ (project_run "subfolder" w Hn)).
  rewrite Hs. reflexivity.
Qed.

Lemma sticky_generated (prefix : value) (w : world) :
  truthy prefix = false →
  held (dir (disk w)) ≠ JNull →
  truthy (field "subfolder" (held (dir (disk w)))) = false →
  write_failure (disk w) = None →
  stickySubfolder env prefix w =
  (Return (Some (JStr (generated env w))),
   World (Store (saved (dir (disk w))
                   {[ "subfolder" := Some (JStr (generated env w)) ]})
                (mkdir_fault (disk w)) (write_fault (disk w)))
         (trace w ++ load_log (dir (disk w)) ++ load_log (dir (disk w))
          ++ [ConsoleError ("Generated and saved new default subfolder: "
                            +:+ generated env w) None])
         (S (draws w))).
Proof.
  intros Hp Hn Hs Hw. unfold stickySubfolder, getSubfolder. rewrite Hp.
  rewrite (run_bind_return _ _ _ _ _ (project_run "subfolder" w Hn)).
  rewrite Hs. unfold randomId at 1. rewrite run_bind. cbn beta iota.
  rewrite run_bind.
  rewrite save_run by exact Hw.
  unfold generated, emit, logged, fs.set_dir, mbind, M_bind, mret, M_ret.
  simpl. rewrite <- !app_assoc. reflexivity.
Qed.

Lemma load_log_console (d : config_dir) : forallb is_console (load_log d) = true.
Proof. destruct d as [|[|e|[e|j]]]; reflexivity. Qed.

Lemma truthy_str (s : string) :
  s ≠ "" → truthy (str (Some s)) = true.
Proof.
  intros Hs. simpl. destruct (String.eqb_spec s ""); [contradiction|reflexivity].
Qed.

(** The sticky-subfolder step returns, and only writes to the console,
    whenever the stored record can be read and a prefix is available. *)
Lemma sticky_returns (prefix : value) (w : world) :
  held (dir (disk w)) ≠ JNull →
  prefix_available prefix (disk w) →
  ∃ chosen w' added,
    stickySubfolder env prefix w = (Return chosen, w')
    ∧ trace w' = trace w ++ added
    ∧ forallb is_console added = true.
Proof.
  intros Hn Havailable.
  destruct (truthy prefix) eqn:Hp.
  - exists prefix, w, []. rewrite sticky_given by exact Hp.
    rewrite app_nil_r. auto.
  - destruct (truthy (field "subfolder" (held (dir (disk w))))) eqn:Hs.
    + rewrite sticky_stored by assumption.
      eexists _, _, _. split; [reflexivity|]. split; [reflexivity|].
      apply load_log_console.
    + destruct Havailable as [Hgiven|[Hstored|Hw]]; try congruence.
      rewrite sticky_generated by assumption.
      eexists _, _, _. split; [reflexivity|]. split; [reflexivity|].
      rewrite !forallb_app, !load_log_console. reflexivity.
Qed.

Lemma callTool_configure (args : option (gmap string string)) :
  callTool env (Request "configure_gcs" args) = configure_gcs args.
Proof. reflexivity. Qed.

Lemma callTool_deploy (args : option (gmap string string)) :
  callTool env (Request "deploy_to_gcs" args) = deploy_to_gcs env args.
Proof. reflexivity. Qed.

(** Up to the sticky-subfolder step, the handler only reads the stored
    record. *)
Lemma deploy_to_gcs_resolves (given : gmap string string) (w : world) :
  held (dir (disk w)) ≠ JNull →
  deploy_to_gcs env (Some given) w =
  (stickySubfolder env (requested_prefix given)
   ≫= deployment env (given !! "sourcePath")
        (resolved_bucket given (dir (disk w)))
        (field "projectId" (held (dir (disk w)))))
    (logged (resolution_log given (dir (disk w))) w).
Proof.
  intros Hn. unfold deploy_to_gcs, arg, resolved_bucket, resolution_log.
  rewrite !run_ret_bind. cbv zeta. fold (requested_prefix given).
  destruct (truthy (str (given !! "bucketName"))).
  - rewrite run_ret_bind. unfold getProject.
    rewrite (run_bind_return _ _ _ _ _ (project_run "projectId" w Hn)).
    reflexivity.
  - unfold getBucket.
    rewrite (run_bind_return _ _ _ _ _ (project_run "bucketName" w Hn)).
    unfold getProject.
    rewrite (run_bind_return _ _ _ _ _
               (project_run "projectId" (logged _ w) Hn)).
    rewrite logged_logged. reflexivity.
Qed.

Lemma deployment_without_path (sourcePath : option string)
    (bucketName projectId prefix : value) (w : world) :
  truthy (str sourcePath) = false →
  deployment env sourcePath bucketName projectId prefix w =
  (Throw (McpError InvalidParams "Missing required argument: sourcePath"), w).
Proof. intros Hs. unfold deployment. rewrite Hs. reflexivity. Qed.

Lemma deployment_missing (sourcePath : option string)
    (bucketName projectId prefix : value) (w : world) :
  truthy (str sourcePath) = true →
  truthy bucketName && truthy projectId = false →
  deployment env sourcePath bucketName projectId prefix w =
  (Return {| text := missing_text
                       ((if truthy bucketName then [] else ["bucketName"])
                        ++ (if truthy projectId then [] else ["projectId"]));
             isError := true |}, w).
Proof.
  intros Hs Hm. unfold deployment. rewrite Hs. simpl negb. cbv iota zeta.
  destruct (truthy bucketName), (truthy projectId);
    try discriminate; reflexivity.
Qed.

Lemma resolution_log_console (given : gmap string string) (d : config_dir) :
  forallb is_console (resolution_log given d) = true.
Proof.
  unfold resolution_log. rewrite forallb_app, load_log_console.
  destruct (truthy _); [reflexivity|]. rewrite load_log_console. reflexivity.
Qed.

Lemma console_is_no_store_call (added : list event) :
  forallb is_console added = true → filter is_store_call added = [].
Proof.
  induction added as [|ev added IH]; [reflexivity|]. simpl.
  intros [Hev Hall]%andb_prop.
  rewrite filter_cons. destruct ev; try discriminate; simpl; auto.
Qed.

Lemma console_is_no_spawn (added : list event) :
  forallb is_console added = true → filter is_spawn added = [].
Proof.
  induction added as [|ev added IH]; [reflexivity|]. simpl.
  intros [Hev Hall]%andb_prop.
  rewrite filter_cons. destruct ev; try discriminate; simpl; auto.
Qed.

(** The probe resolves when its child closes, and stays pending when
    its child emits ['error']. *)
Lemma getCurrentIdentity_run (w : world) :
  c_error (probe_child env w) = None →
  ∃ identity, getCurrentIdentity env w = (Return identity, logged [probe] w).
Proof.
  unfold probe_child, getCurrentIdentity, spawn. intros Hcloses.
  rewrite run_bind. cbv beta iota. rewrite Hcloses.
  destruct (c_code _) as [[| |]|]; try (eexists; reflexivity).
  destruct (truthy _); eexists; reflexivity.
Qed.

Lemma getCurrentIdentity_pending (w : world) :
  c_error (probe_child env w) ≠ None →
  getCurrentIdentity env w = (Pending, logged [probe] w).
Proof.
  unfold probe_child, getCurrentIdentity, spawn. intros Herror.
  rewrite run_bind. cbv beta iota.
  destruct (c_error _); [reflexivity|congruence].
Qed.

Lemma source_error_not_auth (path : string) (e : js_error) (w : world)
    (bucketName prefix : value) :
  source_error env path = Some e →
  deploy env path bucketName prefix w = (Throw e, w).
Proof.
  unfold source_error, deploy.
  destruct (fs_stat env path); intros He; try discriminate;
    injection He as <-; reflexivity.
Qed.

(** With its parameters resolved, the handler probes the identity, logs
    the pre-flight line and deploys. *)
Lemma deployment_ready (path : string)
    (bucketName projectId prefix : value) :
  path ≠ "" → truthy bucketName = true → truthy projectId = true →
  deployment env (Some path) bucketName projectId prefix =
  try_catch
    (identity ← getCurrentIdentity env;
     emit (ConsoleError
             (preflight path bucketName projectId identity prefix) None);;
     publicUrls ← deploy env path bucketName prefix;
     mret {| text :=
               preflight path bucketName projectId identity prefix
               +:+ nl +:+ nl +:+
               "Successfully deployed to GCS. Public URLs:" +:+ nl +:+
               String.concat nl publicUrls;
             isError := false |})
    (λ error,
       mret {| text := "Error deploying to GCS: " +:+ message_text error;
               isError := true |}).
Proof.
  intros Hne Hb Hp. unfold deployment.
  rewrite (truthy_str path Hne), Hb, Hp. reflexivity.
Qed.

(** A deployment of an invalid source reports the source error after the
    probe and the pre-flight line. *)
Lemma deployment_invalid_source (path : string)
    (bucketName projectId prefix : value) (e : js_error) (w : world) :
  path ≠ "" → truthy bucketName = true → truthy projectId = true →
  source_error env path = Some e →
  c_error (probe_child env w) = None →
  ∃ identity,
    deployment env (Some path) bucketName projectId prefix w =
    (Return {| text := "Error deploying to GCS: " +:+ message_text e;
               isError := true |},
     logged [probe;
             ConsoleError
               (preflight path bucketName projectId identity prefix) None] w).
Proof.
  intros Hne Hb Hp He Hcloses. rewrite deployment_ready by assumption.
  destruct (getCurrentIdentity_run w Hcloses) as [identity Hid].
  exists identity.
  unfold try_catch.
  rewrite (run_bind_return _ _ _ _ _ Hid).
  rewrite run_bind. unfold emit at 1. cbv beta iota.
  rewrite (run_bind_throw _ _ _ _ _ (source_error_not_auth path e _ _ _ He)).
  unfold logged. simpl. rewrite <- app_assoc. reflexivity.
Qed.

End Handlers.

End ServerFacts.


(** ** Missing configuration *)

Section MissingConfiguration.

Import ConfigManager GcsDeployServer ConfigFacts ServerFacts Samples.

(** C6, as the code has it.  A [deploy_to_gcs] call that gives a source
    path, for which no bucket is given or stored and no project is
    stored, returns an error-flagged response whose text names
    [bucketName] and [projectId], and the object store is not contacted:
    the call only writes to the console.  The stored record is one that
    the accessors read, and a destination prefix is available (given,
    stored, or generated and accepted by the configuration store). *)
Theorem missing_configuration_is_reported (env : Env)
    (given : gmap string string) (path : string) (w : world)
    (storedBucket storedProject : value) :
  given !! "sourcePath" = Some path → path ≠ "" →
  truthy (str (given !! "bucketName")) = false →
  fst (getBucket w) = Return storedBucket → truthy storedBucket = false →
  fst (getProject w) = Return storedProject → truthy storedProject = false →
  prefix_available (requested_prefix given) (disk w) →
  ∃ answer w' added,
    callTool env (Request "deploy_to_gcs" (Some given)) w = (Return answer, w')
    ∧ isError answer = true
    ∧ text answer =
        "GCS configuration missing: bucketName, projectId. " +:+ nl +:+
        "Please run the " +:+ dq +:+ "configure_gcs" +:+ dq +:+
        " tool to set your Google Cloud Project ID and GCS Bucket Name."
    ∧ occurs "bucketName" (text answer)
    ∧ occurs "projectId" (text answer)
    ∧ trace w' = trace w ++ added
    ∧ forallb is_console added = true
    ∧ filter is_store_call added = [].
Proof.
  intros Hpath Hne Hgiven Hb Hbf Hp Hpf Hw.
  apply project_returns in Hb as [Hn Hb], Hp as [_ Hp].
  rewrite callTool_deploy, deploy_to_gcs_resolves by exact Hn.
  destruct (sticky_returns env (requested_prefix given)
              (logged (resolution_log given (dir (disk w))) w) Hn Hw)
    as (chosen & w' & added & Hrun & Htrace & Hconsole).
  rewrite (run_bind_return _ _ _ _ _ Hrun).
  assert (Hall : forallb is_console
                   (resolution_log given (dir (disk w)) ++ added) = true).
  { rewrite forallb_app, resolution_log_console, Hconsole. reflexivity. }
  rewrite deployment_missing.
  - unfold resolved_bucket. rewrite Hgiven, Hb, Hp, Hbf, Hpf.
    eexists _, w', (resolution_log given (dir (disk w)) ++ added).
    split; [reflexivity|]. split; [reflexivity|]. split; [reflexivity|].
    split; [|split; [|split; [|split]]].
    + exists "GCS configuration missing: ",
        (", projectId. " +:+ nl +:+ "Please run the " +:+ dq +:+
         "configure_gcs" +:+ dq +:+
         " tool to set your Google Cloud Project ID and GCS Bucket Name.").
      reflexivity.
    + exists "GCS configuration missing: bucketName, ",
        (". " +:+ nl +:+ "Please run the " +:+ dq +:+ "configure_gcs" +:+ dq
         +:+ " tool to set your Google Cloud Project ID and GCS Bucket Name.").
      reflexivity.
    + rewrite Htrace. simpl. rewrite app_assoc. reflexivity.
    + exact Hall.
    + apply console_is_no_store_call, Hall.
  - rewrite Hpath. apply truthy_str, Hne.
  - unfold resolved_bucket. rewrite Hgiven, Hb, Hbf. reflexivity.
Qed.

(** The theorem on a first call, before anything is configured. *)
Lemma missing_configuration_witness :
  ∃ answer w' added,
    callTool laptop
      (Request "deploy_to_gcs" (Some {[ "sourcePath" := "/site/index.html" ]}))
      fresh = (Return answer, w')
    ∧ isError answer = true
    ∧ text answer =
        "GCS configuration missing: bucketName, projectId. " +:+ nl +:+
        "Please run the " +:+ dq +:+ "configure_gcs" +:+ dq +:+
        " tool to set your Google Cloud Project ID and GCS Bucket Name."
    ∧ occurs "bucketName" (text answer)
    ∧ occurs "projectId" (text answer)
    ∧ trace w' = trace fresh ++ added
    ∧ forallb is_console added = true
    ∧ filter is_store_call added = [].
Proof.
  apply (missing_configuration_is_reported laptop
           {[ "sourcePath" := "/site/index.html" ]} "/site/index.html"
           fresh undefined undefined);
    try reflexivity.
  - discriminate.
  - right. right. reflexivity.
Defined.

(** C6, as stated, fails: for the call below no bucket and no project is
    given or stored, and it is not answered with a response.  It does not
    give a source path either, which the handler checks first: the call
    throws the invalid-params fault. *)
Lemma missing_source_path_is_checked_first :
  fst (getBucket fresh) = Return undefined
  ∧ fst (getProject fresh) = Return undefined
  ∧ fst (callTool laptop (Request "deploy_to_gcs" (Some ∅)) fresh)
    = Throw (McpError InvalidParams "Missing required argument: sourcePath")
  ∧ ¬ ∃ answer,
        fst (callTool laptop (Request "deploy_to_gcs" (Some ∅)) fresh)
        = Return answer.
Proof.
  split; [reflexivity|]. split; [reflexivity|]. split; [reflexivity|].
  intros [answer Hanswer]. vm_compute in Hanswer. discriminate Hanswer.
Qed.

End MissingConfiguration.

(** ** Invalid source paths *)

Section InvalidSource.

Import ConfigManager GcsDeployServer ConfigFacts ServerFacts Samples.




End InvalidSource.

(** ** The generated subfolder is persisted before validation *)

Section GeneratedSubfolder.

Import ConfigManager GcsDeployServer ConfigFacts ServerFacts Frame Samples.

(** The stored subfolder after a call that generated one. *)
Lemma generated_is_stored (env : Env) (given : gmap string string)
    (w : world) (stored : value) :
  truthy (str (given !! "destinationPrefix")) = false →
  fst (getSubfolder w) = Return stored → truthy stored = false →
  write_failure (disk w) = None →
  ∃ w1,
    callTool env (Request "deploy_to_gcs" (Some given)) w =
      deployment env (given !! "sourcePath")
        (resolved_bucket given (dir (disk w)))
        (field "projectId" (held (dir (disk w))))
        (Some (JStr (generated env w))) w1
    ∧ dir (disk w1) =
        saved (dir (disk w)) {[ "subfolder" := Some (JStr (generated env w)) ]}.
Proof.
  intros Hprefix Hs Hsf Hw.
  apply project_returns in Hs as [Hn Hs]. subst stored.
  rewrite callTool_deploy, deploy_to_gcs_resolves by exact Hn.
  assert (Hreq : truthy (requested_prefix given) = false).
  { unfold requested_prefix. rewrite Hprefix. reflexivity. }
  rewrite (run_bind_return _ _ _ _ _
             (sticky_generated env (requested_prefix given)
                (logged (resolution_log given (dir (disk w))) w)
                Hreq Hn Hsf Hw)).
  eexists. split; reflexivity.
Qed.

Lemma generated_is_persisted (env : Env) (given : gmap string string)
    (w : world) (stored : value) :
  truthy (str (given !! "destinationPrefix")) = false →
  fst (getSubfolder w) = Return stored → truthy stored = false →
  write_failure (disk w) = None →
  dir (disk (snd (callTool env (Request "deploy_to_gcs" (Some given)) w)))
  = saved (dir (disk w)) {[ "subfolder" := Some (JStr (generated env w)) ]}.
Proof.
  intros Hprefix Hs Hsf Hw.
  destruct (generated_is_stored env given w stored Hprefix Hs Hsf Hw)
    as (w1 & -> & Hdir).
  destruct (keeps_disk_deployment env (given !! "sourcePath")
              (resolved_bucket given (dir (disk w)))
              (field "projectId" (held (dir (disk w))))
              (Some (JStr (generated env w))) w1) as [-> _].
  exact Hdir.
Qed.




End GeneratedSubfolder.

(** ** Classification of upload errors *)

Module StringFacts.

Lemma append_nil (s : string) : "" +:+ s = s.
Proof. reflexivity. Qed.

Lemma append_cons (c : ascii) (s t : string) :
  String c s +:+ t = String c (s +:+ t).
Proof. reflexivity. Qed.

Lemma prefix_occurs (needle s : string) :
  String.prefix needle s = true ↔ ∃ after, s = needle +:+ after.
Proof.
  revert s. induction needle as [|c needle IH]; intros s.
  - split; [intros _; exists s; reflexivity | destruct s; reflexivity].
  - destruct s as [|c' s]; simpl.
    + split; [discriminate | intros [after Hs]; discriminate].
    + destruct (Ascii.ascii_dec c c') as [<-|Hc].
      * rewrite IH.
        split; intros [after Hs]; exists after;
          rewrite append_cons in *; congruence.
      * split; [discriminate|].
        intros [after Hs]. rewrite append_cons in Hs. congruence.
Qed.

Lemma includes_occurs (s needle : string) :
  includes s needle = true ↔ occurs needle s.
Proof.
  unfold occurs. induction s as [|c s IH]; cbn [includes].
  - rewrite orb_false_r, prefix_occurs. split.
    + intros [after Hs]. exists "", after. exact Hs.
    + intros (before & after & Hs). destruct before; [|discriminate].
      exists after. exact Hs.
  - rewrite orb_true_iff, prefix_occurs, IH. split.
    + intros [[after Hs]|(before & after & Hs)].
      * exists "", after. exact Hs.
      * exists (String c before), after. rewrite append_cons. congruence.
    + intros (before & after & Hs). destruct before as [|c' before].
      * left. exists after. exact Hs.
      * right. exists before, after. rewrite append_cons in Hs. congruence.
Qed.

End StringFacts.

Section AuthRecovery.

Import GcsDeployServer StringFacts Samples.

Lemma isAuthError_spec (error : js_error) :
  isAuthError error = true ↔
  e_code error = Some (JNum 401)
  ∨ ∃ message, e_message error = Some message
               ∧ (occurs credentials_hint message
                  ∨ occurs anonymous_hint message).
Proof.
  unfold isAuthError. rewrite orb_true_iff.
  assert (Hcode :
    match e_code error with
    | Some (JNum code) => (code =? 401)%Z
    | _ => false
    end = true ↔ e_code error = Some (JNum 401)).
  { destruct (e_code error) as [[| |code| | |]|];
      try (split; [discriminate | congruence]).
    rewrite Z.eqb_eq. split; congruence. }
  assert (Hmessage :
    match e_message error with
    | Some message =>
        truthy (Some (JStr message))
        && (includes message credentials_hint
            || includes message anonymous_hint)
    | None => false
    end = true ↔
    ∃ message, e_message error = Some message
               ∧ (occurs credentials_hint message
                  ∨ occurs anonymous_hint message)).
  { destruct (e_message error) as [message|].
    - rewrite andb_true_iff, orb_true_iff, !includes_occurs. split.
      + intros [_ Hocc]. exists message. auto.
      + intros (m & [= <-] & Hocc). split; [|exact Hocc].
        destruct message; [|reflexivity].
        destruct Hocc as [Hocc|Hocc]; apply includes_occurs in Hocc;
          discriminate.
    - split; [discriminate | intros (m & Hm & _); discriminate]. }
  rewrite Hcode, Hmessage. reflexivity.
Qed.

Lemma attemptAutoAuth_run (env : Env) (w : world) :
  attemptAutoAuth env (announced w) =
  (match c_error (login_flow env w) with
   | Some err => Throw err
   | None =>
       match c_code (login_flow env w) with
       | Some 0%Z => Return ()
       | code => Throw (Error ("gcloud exited with code " +:+ show_code code))
       end
   end, logged [login] (announced w)).
Proof.
  unfold attemptAutoAuth, spawn. rewrite run_bind. cbv beta iota.
  fold (login_flow env w).
  destruct (c_error (login_flow env w)); [reflexivity|].
  destruct (c_code (login_flow env w)) as [[| |]|]; reflexivity.
Qed.

(** What the [catch (error)] block of [deploy] throws for an
    authentication error: the inner [catch] also receives the error that
    the [try] block throws after a successful login flow. *)
Lemma recover_auth {A} (env : Env) (error : js_error) (w : world) :
  isAuthError error = true →
  @recover env A error w =
  (Throw (Error (launch_failure
            match c_error (login_flow env w) with
            | Some err => message_text err
            | None =>
                match c_code (login_flow env w) with
                | Some 0%Z => launched_message
                | code => "gcloud exited with code " +:+ show_code code
                end
            end (message_text error))),
   logged [login] (announced w)).
Proof.
  intros Hauth. unfold recover. rewrite Hauth.
  rewrite run_bind, run_bind. unfold emit at 1. cbv beta iota.
  unfold try_catch at 1.
  change {| disk := disk w; trace := _; draws := draws w |}
    with (announced w).
  rewrite run_bind, attemptAutoAuth_run.
  destruct (c_error (login_flow env w)); [reflexivity|].
  destruct (c_code (login_flow env w)) as [[| |]|]; reflexivity.
Qed.

(** C7.  An error raised in the upload phase of [deploy] is treated as
    an authentication error exactly when its code is 401 or its message
    contains one of the two hints.  For such an error [deploy] announces
    and starts the login flow, once, and throws an error that it builds;
    any other error is thrown on as it is, with nothing else done: no
    login flow is started. *)
Theorem upload_errors_are_classified (env : Env) (sourcePath : string)
    (bucketName prefix : value) (stats : node) (error : js_error)
    (w w' : world) :
  fs_stat env sourcePath = stats → (∀ e, stats ≠ NoStat e) →
  transfer env (storage_bucket env bucketName) sourcePath prefix stats w
    = (Throw error, w') →
  let authentication :=
    e_code error = Some (JNum 401)
    ∨ ∃ message,
        e_message error = Some message
        ∧ (occurs "Could not load the default credentials" message
           ∨ occurs
               "Anonymous caller does not have storage.objects.create access"
               message) in
  (authentication →
   ∃ reason,
     deploy env sourcePath bucketName prefix w
     = (Throw (Error ("Authentication failed and could not launch gcloud: "
                      +:+ reason +:+ ". Original error: "
                      +:+ message_text error)),
        logged [ConsoleError
                  "Authentication error detected. Attempting to launch gcloud auth..."
                  None;
                login] w'))
  ∧ (¬ authentication →
     deploy env sourcePath bucketName prefix w = (Throw error, w')).
Proof.
  intros Hstat Hsome Hthrow authentication.
  assert (Hdeploy :
    deploy env sourcePath bucketName prefix w = recover env error w').
  { unfold deploy. rewrite Hstat.
    destruct stats; try exact (run_try_throw _ _ _ _ _ Hthrow).
    destruct (Hsome e eq_refl). }
  rewrite Hdeploy. split.
  - intros Hauth. apply isAuthError_spec in Hauth.
    rewrite recover_auth by exact Hauth.
    unfold announced. rewrite logged_logged. eexists. reflexivity.
  - intros Hother.
    assert (Hfalse : isAuthError error = false).
    { destruct (isAuthError error) eqn:Hauth; [|reflexivity].
      destruct Hother. apply isAuthError_spec, Hauth. }
    unfold recover. rewrite Hfalse. reflexivity.
Qed.

(** The theorem on an upload that the store forbids, and on one that
    the store does not authorize. *)
Lemma upload_errors_witness :
  deploy (sample_env "0.4fzyo82mvyr" login_done (Some forbidden))
         "/site/index.html" (Some (JStr "b1")) (Some (JStr "site-k3x9qa"))
         configured
  = (Throw forbidden,
     logged [Upload (Some (JStr "b1")) "/site/index.html"
               "site-k3x9qa/index.html" "public, max-age=31536000"
               "text/html"] configured)
  ∧ filter is_spawn
      (trace (snd (deploy
                     (sample_env "0.4fzyo82mvyr" login_done (Some unauthorized))
                     "/site/index.html" (Some (JStr "b1"))
                     (Some (JStr "site-k3x9qa")) configured)))
    = [login].
Proof.
  assert (Hfile : ∀ e, File ≠ NoStat e) by (intros e He; discriminate He).
  split.
  - apply (upload_errors_are_classified
             (sample_env "0.4fzyo82mvyr" login_done (Some forbidden))
             "/site/index.html" (Some (JStr "b1")) (Some (JStr "site-k3x9qa"))
             File forbidden configured _ eq_refl Hfile eq_refl).
    intros Hauth. apply isAuthError_spec in Hauth. discriminate Hauth.
  - destruct (upload_errors_are_classified
                (sample_env "0.4fzyo82mvyr" login_done (Some unauthorized))
                "/site/index.html" (Some (JStr "b1"))
                (Some (JStr "site-k3x9qa"))
                File unauthorized configured _ eq_refl Hfile eq_refl)
      as [Hauth _].
    destruct Hauth as [reason ->]; [left; reflexivity|]. reflexivity.
Defined.

(** C2, at the failing input.  When the upload fails with an
    authentication error and the login flow exits with code 0, [deploy]
    does not fail with the constructed message: it fails with the
    launch-failure message that wraps it. *)
Theorem login_success_is_reported_as_launch_failure (env : Env)
    (sourcePath : string) (bucketName prefix : value) (stats : node)
    (error : js_error) (w w1 : world) :
  fs_stat env sourcePath = stats → (∀ e, stats ≠ NoStat e) →
  transfer env (storage_bucket env bucketName) sourcePath prefix stats w
    = (Throw error, w1) →
  isAuthError error = true →
  c_error (login_flow env w1) = None →
  c_code (login_flow env w1) = Some 0%Z →
  deploy env sourcePath bucketName prefix w =
    (Throw (Error (launch_failure launched_message (message_text error))),
     logged [login] (announced w1))
  ∧ Error (launch_failure launched_message (message_text error))
    ≠ Error launched_message.
Proof.
  intros Hstat Hsome Hthrow Hauth Herr Hcode. split.
  - unfold deploy. rewrite Hstat.
    assert (Hcatch :
      try_catch (transfer env (storage_bucket env bucketName) sourcePath
                   prefix stats) (recover env) w =
      (Throw (Error (launch_failure launched_message (message_text error))),
       logged [login] (announced w1))).
    { rewrite (run_try_throw _ _ _ _ _ Hthrow).
      rewrite recover_auth by exact Hauth. rewrite Herr, Hcode. reflexivity. }
    destruct stats; try exact Hcatch. destruct (Hsome e eq_refl).
  - intros Heq. injection Heq as Heq. unfold launch_failure in Heq.
    vm_compute in Heq. discriminate Heq.
Qed.

(** The other outcomes of the login flow: a non-zero exit code, or a child
    that could not be started, give the launch-failure message with that
    reason and the message of the upload error. *)
Lemma login_failure_is_reported {A} (env : Env) (error : js_error) (w : world) :
  isAuthError error = true →
  (∀ err, c_error (login_flow env w) = Some err →
     @recover env A error w =
     (Throw (Error (launch_failure (message_text err) (message_text error))),
      logged [login] (announced w)))
  ∧ (∀ code, c_error (login_flow env w) = None →
       c_code (login_flow env w) = code → code ≠ Some 0%Z →
       @recover env A error w =
       (Throw (Error (launch_failure
                        ("gcloud exited with code " +:+ show_code code)
                        (message_text error))),
        logged [login] (announced w))).
Proof.
  intros Hauth. split.
  - intros err Herr. rewrite recover_auth, Herr by exact Hauth. reflexivity.
  - intros code Herr Hcode Hnonzero.
    rewrite recover_auth, Herr, Hcode by exact Hauth.
    destruct code as [[| |]|]; try reflexivity. congruence.
Qed.

(** The message after a successful login flow differs from the one after
    a flow that exits with another code. *)
Lemma login_outcomes_differ (code : option Z) (original : string) :
  launch_failure launched_message original
  ≠ launch_failure ("gcloud exited with code " +:+ show_code code) original.
Proof.
  intros Heq. unfold launch_failure in Heq. vm_compute in Heq.
  discriminate Heq.
Qed.

(** A login flow that exits with code 1. *)
Lemma login_refused_example :
  deploy (sample_env "0.4fzyo82mvyr" login_refused (Some unauthorized))
         "/site/index.html" (Some (JStr "b1")) (Some (JStr "site-k3x9qa"))
         configured
  = (Throw (Error (launch_failure "gcloud exited with code 1" "Unauthorized")),
     logged [login]
       (announced
          (logged [Upload (Some (JStr "b1")) "/site/index.html"
                     "site-k3x9qa/index.html" "public, max-age=31536000"
                     "text/html"] configured))).
Proof. reflexivity. Qed.

(** The theorem on an unauthorized upload followed by a login flow that
    exits with code 0. *)
Lemma login_success_witness :
  deploy (sample_env "0.4fzyo82mvyr" login_done (Some unauthorized))
         "/site/index.html" (Some (JStr "b1")) (Some (JStr "site-k3x9qa"))
         configured
  = (Throw (Error (launch_failure launched_message "Unauthorized")),
     logged [login]
       (announced
          (logged [Upload (Some (JStr "b1")) "/site/index.html"
                     "site-k3x9qa/index.html" "public, max-age=31536000"
                     "text/html"] configured))).
Proof.
  apply (login_success_is_reported_as_launch_failure
           (sample_env "0.4fzyo82mvyr" login_done (Some unauthorized))
           "/site/index.html" (Some (JStr "b1")) (Some (JStr "site-k3x9qa"))
           File unauthorized configured);
    try reflexivity.
  intros e He. discriminate He.
Defined.

End AuthRecovery.

(** ** The configuration store fails open on load, closed on save *)

Section StoreFailures.

Import ConfigManager GcsDeployServer ConfigFacts ServerFacts Samples.

(** C8, as the code has it.  [load] never throws.  When the file is
    absent, unreadable, or does not parse, it returns an empty record and
    the three accessors return [undefined].  When the file parses, [load]
    returns what it parses to, whatever its shape, and the accessors
    return without throwing if that is not [null]. *)
Theorem load_fails_open (w : world) :
  (∃ record w', load w = (Return record, w'))
  ∧ ((∀ j, dir (disk w) ≠ Dir (Data (Encodes j))) →
     fst (load w) = Return (JObj ∅)
     ∧ fst (getBucket w) = Return undefined
     ∧ fst (getProject w) = Return undefined
     ∧ fst (getSubfolder w) = Return undefined)
  ∧ (∀ j, dir (disk w) = Dir (Data (Encodes j)) →
     fst (load w) = Return j
     ∧ (j ≠ JNull →
        fst (getBucket w) = Return (field "bucketName" j)
        ∧ fst (getProject w) = Return (field "projectId" j)
        ∧ fst (getSubfolder w) = Return (field "subfolder" j))).
Proof.
  split; [|split].
  - rewrite load_run. eauto.
  - intros Hcorrupt.
    assert (Hheld : held (dir (disk w)) = JObj ∅).
    { destruct (dir (disk w)) as [|[|e|[e|j]]]; try reflexivity.
      destruct (Hcorrupt j eq_refl). }
    unfold getBucket, getProject, getSubfolder.
    rewrite load_run, !project_run by (rewrite Hheld; discriminate).
    rewrite Hheld. repeat split.
  - intros j Hj. rewrite load_run, Hj. split; [reflexivity|].
    intros Hn. unfold getBucket, getProject, getSubfolder.
    rewrite !project_run by (rewrite Hj; exact Hn).
    rewrite Hj. repeat split.
Qed.

(** The theorem on a store without directory and on a stored record. *)
Lemma load_fails_open_witness :
  fst (load fresh) = Return (JObj ∅)
  ∧ fst (load (holding {[ "bucketName" := JStr "b1" ]}))
    = Return (JObj {[ "bucketName" := JStr "b1" ]})
  ∧ fst (getBucket (holding {[ "bucketName" := JStr "b1" ]}))
    = Return (Some (JStr "b1")).
Proof.
  destruct (load_fails_open fresh) as (_ & Habsent & _).
  destruct (load_fails_open (holding {[ "bucketName" := JStr "b1" ]}))
    as (_ & _ & Hparsed).
  destruct (Hparsed (JObj {[ "bucketName" := JStr "b1" ]}) eq_refl)
    as [Hload Haccessors].
  split; [|split; [exact Hload|]].
  - apply Habsent. intros j Hj. discriminate Hj.
  - apply Haccessors. discriminate.
Defined.

(** C8, as stated, fails: a file whose content parses but does not have
    the shape of the record is returned as it is, not as an empty
    record. *)
Lemma misshapen_record_is_loaded :
  fst (load (holding {[ "bucketName" := JNum 5 ]}))
    = Return (JObj {[ "bucketName" := JNum 5 ]})
  ∧ fst (load (holding {[ "bucketName" := JNum 5 ]})) ≠ Return (JObj ∅)
  ∧ fst (getBucket (holding {[ "bucketName" := JNum 5 ]}))
    = Return (Some (JNum 5)).
Proof.
  split; [reflexivity|]. split; [|reflexivity].
  intros Heq.
  apply (f_equal (λ r, match r with
                       | Settled (Return record) => field "bucketName" record
                       | _ => undefined
                       end)) in Heq.
  vm_compute in Heq. discriminate Heq.
Qed.

(** A file that holds [null] makes the accessors throw. *)
Lemma null_record_breaks_accessors (w : world) :
  dir (disk w) = Dir (Data (Encodes JNull)) →
  getBucket w = (Throw (TypeError_read "null" "bucketName"), w).
Proof.
  intros Hnull. unfold getBucket.
  rewrite (run_bind_return _ _ _ _ _ (load_run w)), Hnull. simpl.
  rewrite logged_nil. reflexivity.
Qed.

(** C9, as the code has it.  When the write of a [configure_gcs] call
    fails, the handler throws the error of the file system (a fault of
    the protocol, not a response), after logging it. *)
Theorem configure_gcs_throws_write_failure (env : Env)
    (given : gmap string string) (w : world) (e : js_error) :
  write_failure (disk w) = Some e →
  ∃ w', callTool env (Request "configure_gcs" (Some given)) w = (Throw e, w')
        ∧ last (trace w') = Some (ConsoleError "Error saving config:" (Some e)).
Proof.
  intros Hfail. rewrite callTool_configure. unfold configure_gcs, arg.
  rewrite !run_ret_bind.
  rewrite (run_bind_throw _ _ _ _ _
             (save_fails {[ "bucketName" := str (given !! "bucketName");
                            "projectId" := str (given !! "projectId");
                            "subfolder" := str (given !! "subfolder") ]}
                w e Hfail)).
  eexists. split; [reflexivity|].
  simpl. rewrite !app_assoc. apply last_snoc.
Qed.

(** The theorem on a directory that cannot be written to. *)
Lemma configure_gcs_write_failure_witness :
  ∃ w', callTool laptop (Request "configure_gcs"
                           (Some {[ "bucketName" := "b1" ]})) locked
        = (Throw read_only, w')
        ∧ last (trace w')
          = Some (ConsoleError "Error saving config:" (Some read_only)).
Proof.
  apply (configure_gcs_throws_write_failure laptop
           {[ "bucketName" := "b1" ]} locked read_only).
  reflexivity.
Defined.

(** C9, as stated, fails: the call below meets a write failure and does
    not return an error-flagged response; it throws. *)
Lemma write_failure_is_not_a_response :
  write_failure (disk locked) = Some read_only
  ∧ fst (callTool laptop (Request "configure_gcs"
                            (Some {[ "bucketName" := "b1" ]})) locked)
    = Throw read_only
  ∧ ¬ ∃ answer,
        fst (callTool laptop (Request "configure_gcs"
                                (Some {[ "bucketName" := "b1" ]})) locked)
        = Return answer ∧ isError answer = true.
Proof.
  split; [reflexivity|]. split; [reflexivity|].
  intros (answer & Hanswer & _). vm_compute in Hanswer. discriminate Hanswer.
Qed.

End StoreFailures.

(** ** Partial configuration *)

Section PartialConfiguration.

Import ConfigManager GcsDeployServer ConfigFacts ServerFacts Samples.

(** A [configure_gcs] call that the store accepts saves the three keys
    together, each with what the call gives for it, and confirms. *)
Lemma configure_gcs_run (env : Env) (given : gmap string string) (w : world) :
  write_failure (disk w) = None →
  ∃ confirmation w',
    callTool env (Request "configure_gcs" (Some given)) w
      = (Return confirmation, w')
    ∧ isError confirmation = false
    ∧ disk w' = Store (saved (dir (disk w)) (configured_fields given))
                      (mkdir_fault (disk w)) (write_fault (disk w)).
Proof.
  intros Hw. rewrite callTool_configure. unfold configure_gcs, arg.
  rewrite !run_ret_bind.
  rewrite (run_bind_return _ _ _ _ _
             (save_run (configured_fields given) w Hw)).
  eexists _, _. split; [reflexivity|]. split; reflexivity.
Qed.

(** A store that has accepted a write accepts the next one. *)
Lemma write_failure_after_save (d : store) (config : gmap string value) :
  write_failure d = None →
  write_failure (Store (saved (dir d) config) (mkdir_fault d) (write_fault d))
  = None.
Proof.
  destruct d as [[|f] [e|] wf]; unfold write_failure; simpl;
    intros Hw; try discriminate; exact Hw.
Qed.

(** The keys that a [configure_gcs] call leaves out are stored as
    absent, whatever the record held for them. *)
Lemma configure_gcs_overwrites (given : gmap string string) (d : config_dir)
    (key : string) :
  key ∈ ["bucketName"; "projectId"; "subfolder"] →
  field key (held (saved d (configured_fields given))) = str (given !! key).
Proof.
  intros Hkey. rewrite saved_field. unfold configured_fields.
  repeat (apply elem_of_cons in Hkey as [->|Hkey]; [reflexivity|]).
  apply elem_of_nil in Hkey. destruct Hkey.
Qed.

(** C1, at the failing inputs.  When a [configure_gcs] call gives a
    field and the next [configure_gcs] call leaves that field out, the
    field is stored after the first call and absent after the second:
    the second call does not keep what it does not supply. *)
Theorem configure_gcs_forgets_omitted_fields (env : Env)
    (first second : gmap string string) (w : world) (key given : string) :
  key ∈ ["bucketName"; "projectId"; "subfolder"] →
  first !! key = Some given → second !! key = None →
  write_failure (disk w) = None →
  let w1 := snd (callTool env (Request "configure_gcs" (Some first)) w) in
  let w2 := snd (callTool env (Request "configure_gcs" (Some second)) w1) in
  fst ((load ≫= read key) w1) = Return (Some (JStr given))
  ∧ fst ((load ≫= read key) w2) = Return undefined.
Proof.
  intros Hkey Hfirst Hsecond Hw w1 w2.
  destruct (configure_gcs_run env first w Hw) as (r1 & w1' & Hrun1 & _ & Hd1).
  assert (Hw1 : w1 = w1') by (unfold w1; rewrite Hrun1; reflexivity).
  assert (Hwrite : write_failure (disk w1) = None).
  { rewrite Hw1, Hd1. apply write_failure_after_save, Hw. }
  destruct (configure_gcs_run env second w1 Hwrite)
    as (r2 & w2' & Hrun2 & _ & Hd2).
  assert (Hw2 : w2 = w2') by (unfold w2; rewrite Hrun2; reflexivity).
  split.
  - rewrite project_run by (rewrite Hw1, Hd1; apply saved_not_null).
    rewrite Hw1, Hd1. cbn [fst dir].
    rewrite (configure_gcs_overwrites first _ key Hkey), Hfirst. reflexivity.
  - rewrite project_run by (rewrite Hw2, Hd2; apply saved_not_null).
    rewrite Hw2, Hd2. cbn [fst dir].
    rewrite (configure_gcs_overwrites second _ key Hkey), Hsecond.
    reflexivity.
Qed.

(** The theorem on the two calls of the round trip: the bucket of the
    first call is gone after the second. *)
Lemma configure_gcs_forgets_witness :
  let w1 := snd (callTool laptop
                   (Request "configure_gcs" (Some {[ "bucketName" := "b1" ]}))
                   fresh) in
  let w2 := snd (callTool laptop
                   (Request "configure_gcs" (Some {[ "projectId" := "p1" ]}))
                   w1) in
  fst (getBucket w1) = Return (Some (JStr "b1"))
  ∧ fst (getBucket w2) = Return undefined.
Proof.
  apply (configure_gcs_forgets_omitted_fields laptop
           {[ "bucketName" := "b1" ]} {[ "projectId" := "p1" ]} fresh
           "bucketName" "b1");
    try reflexivity.
  set_solver.
Defined.

(** The records that [load] returns after each of the two calls. *)
Lemma sequential_configure_example (env : Env) :
  let first := Request "configure_gcs" (Some {[ "bucketName" := "b1" ]}) in
  let second := Request "configure_gcs" (Some {[ "projectId" := "p1" ]}) in
  let w1 := snd (callTool env first fresh) in
  let w2 := snd (callTool env second w1) in
  fst (load w1) = Return (JObj {[ "bucketName" := JStr "b1" ]})
  ∧ fst (load w2) = Return (JObj {[ "projectId" := JStr "p1" ]}).
Proof. split; vm_compute; reflexivity. Qed.

(** The sibling handler does check its required argument: a
    [deploy_to_gcs] call without [sourcePath] throws the invalid-params
    fault, once its parameters have been resolved. *)
Lemma deploy_to_gcs_requires_sourcePath (env : Env)
    (given : gmap string string) (w : world) :
  truthy (str (given !! "sourcePath")) = false →
  held (dir (disk w)) ≠ JNull →
  prefix_available (requested_prefix given) (disk w) →
  ∃ w', callTool env (Request "deploy_to_gcs" (Some given)) w =
        (Throw (McpError InvalidParams "Missing required argument: sourcePath"),
         w').
Proof.
  intros Hpath Hn Hw.
  rewrite callTool_deploy, deploy_to_gcs_resolves by exact Hn.
  destruct (sticky_returns env (requested_prefix given)
              (logged (resolution_log given (dir (disk w))) w) Hn Hw)
    as (chosen & w' & added & Hrun & _).
  rewrite (run_bind_return _ _ _ _ _ Hrun).
  rewrite deployment_without_path by exact Hpath. eauto.
Qed.

(** C3, at the failing input.  A [configure_gcs] call without
    [bucketName] is not rejected: it returns a confirmation that is not
    error-flagged, and stores a record without bucket. *)
Theorem configure_gcs_accepts_missing_bucket (env : Env)
    (given : gmap string string) (w : world) :
  given !! "bucketName" = None →
  write_failure (disk w) = None →
  ∃ confirmation w',
    callTool env (Request "configure_gcs" (Some given)) w
      = (Return confirmation, w')
    ∧ isError confirmation = false
    ∧ fst (getBucket w') = Return undefined.
Proof.
  intros Hbucket Hw.
  destruct (configure_gcs_run env given w Hw)
    as (confirmation & w' & Hcall & Hflag & Hdir).
  exists confirmation, w'. split; [exact Hcall|]. split; [exact Hflag|].
  unfold getBucket. rewrite project_run by (rewrite Hdir; apply saved_not_null).
  rewrite Hdir. cbn [fst dir].
  rewrite (configure_gcs_overwrites given _ "bucketName"), Hbucket
    by set_solver.
  reflexivity.
Qed.

(** The theorem on a call that gives the project only. *)
Lemma configure_gcs_missing_bucket_witness :
  ∃ confirmation w',
    callTool laptop (Request "configure_gcs" (Some {[ "projectId" := "p1" ]}))
             fresh
      = (Return confirmation, w')
    ∧ isError confirmation = false
    ∧ fst (getBucket w') = Return undefined.
Proof.
  apply (configure_gcs_accepts_missing_bucket laptop
           {[ "projectId" := "p1" ]} fresh);
    reflexivity.
Defined.

(** The same call answers in words. *)
Lemma configure_gcs_missing_bucket_text :
  fst (callTool laptop (Request "configure_gcs" (Some {[ "projectId" := "p1" ]}))
                fresh)
  = Return {| text := "Configuration saved for bucket 'undefined' in project 'p1'.";
              isError := false |}.
Proof. reflexivity. Qed.

End PartialConfiguration.

(** ** The sticky subfolder *)

Section StickySubfolder.

Import ConfigManager GcsDeployServer ConfigFacts ServerFacts Frame Samples.

(** Once a subfolder has been generated and stored, a later call without
    a destination prefix takes it from the store. *)
Lemma generated_subfolder_is_reused (env : Env) (w : world) (folder : string)
    (d : config_dir) (prefix : value) :
  truthy prefix = false → folder ≠ "" →
  dir (disk w) = saved d {[ "subfolder" := Some (JStr folder) ]} →
  stickySubfolder env prefix w = (Return (Some (JStr folder)), w).
Proof.
  intros Hprefix Hfolder Hdir.
  assert (Hfield : field "subfolder" (held (dir (disk w)))
                   = Some (JStr folder)).
  { rewrite Hdir, saved_field, lookup_singleton_eq. reflexivity. }
  rewrite sticky_stored.
  - rewrite Hfield, Hdir. simpl. rewrite logged_nil. reflexivity.
  - exact Hprefix.
  - rewrite Hdir. apply saved_not_null.
  - rewrite Hfield. apply (truthy_str folder Hfolder).
Qed.

Lemma length_substring (from count : nat) (s : string) :
  String.length (String.substring from count s)
  = Nat.min count (String.length s - from).
Proof.
  revert from count. induction s as [|c s IH]; intros [|from] [|count];
    simpl; try reflexivity; rewrite ?IH, ?Nat.sub_0_r; reflexivity.
Qed.

(** The generated token has as many characters as the printed random
    number has after its first two, up to six. *)
Lemma generated_token_length (env : Env) (w : world) :
  String.length (substring 2 8 (random36 env (draws w)))
  = Nat.min 6 (String.length (random36 env (draws w)) - 2).
Proof. unfold substring. apply length_substring. Qed.

Lemma substring_all (s : string) :
  String.substring 0 (String.length s) s = s.
Proof. induction s as [|c s IH]; simpl; [|rewrite IH]; reflexivity. Qed.

Lemma site_pattern_site (token : string) :
  site_pattern ("site-" +:+ token)
  = (String.length token =? 6)%nat
    && forallb base36 (String.list_ascii_of_string token).
Proof.
  unfold site_pattern, token_of.
  change ("site-" +:+ token)
    with (String "s" (String "i" (String "t" (String "e" (String "-" token))))).
  simpl. rewrite Nat.sub_0_r, substring_all.
  destruct token; reflexivity.
Qed.

(** A draw that prints with fewer than eight characters gives a
    subfolder that does not match the pattern. *)
Lemma short_draw_breaks_pattern (env : Env) (w : world) :
  String.length (random36 env (draws w)) < 8 →
  site_pattern (generated env w) = false.
Proof.
  intros Hshort. unfold generated. rewrite site_pattern_site.
  rewrite generated_token_length.
  destruct (Nat.eqb_spec (6 `min` (String.length (random36 env (draws w)) - 2)) 6)
    as [Heq|_]; [lia|reflexivity].
Qed.

(** C5, at the failing inputs.  When no subfolder is stored and the
    random number prints with fewer than eight characters, two
    consecutive [deploy_to_gcs] calls without destination prefix both
    deploy to the subfolder that the first one generates, and that
    subfolder does not match [site-[0-9a-z]{6}]: its token is shorter. *)
Theorem short_draw_gives_short_sticky_subfolder (env : Env)
    (given again : gmap string string) (w : world) (stored : value) :
  truthy (str (given !! "destinationPrefix")) = false →
  truthy (str (again !! "destinationPrefix")) = false →
  fst (getSubfolder w) = Return stored → truthy stored = false →
  write_failure (disk w) = None →
  String.length (random36 env (draws w)) < 8 →
  let folder := Some (JStr (generated env w)) in
  let first := callTool env (Request "deploy_to_gcs" (Some given)) w in
  let second :=
    callTool env (Request "deploy_to_gcs" (Some again)) (snd first) in
  (∃ w1, first =
         deployment env (given !! "sourcePath")
           (resolved_bucket given (dir (disk w)))
           (field "projectId" (held (dir (disk w)))) folder w1)
  ∧ (∃ w2, second =
           deployment env (again !! "sourcePath")
             (resolved_bucket again (dir (disk (snd first))))
             (field "projectId" (held (dir (disk (snd first))))) folder w2)
  ∧ site_pattern (generated env w) = false.
Proof.
  intros Hgiven Hagain Hs Hsf Hw Hshort folder first second.
  split; [|split].
  - destruct (generated_is_stored env given w stored Hgiven Hs Hsf Hw)
      as (w1 & Hcall & _).
    exists w1. exact Hcall.
  - pose proof (generated_is_persisted env given w stored Hgiven Hs Hsf Hw)
      as Hdir.
    fold first in Hdir.
    assert (Hn : held (dir (disk (snd first))) ≠ JNull).
    { rewrite Hdir. apply saved_not_null. }
    unfold second. rewrite callTool_deploy, deploy_to_gcs_resolves by exact Hn.
    assert (Hreq : truthy (requested_prefix again) = false).
    { unfold requested_prefix. rewrite Hagain. reflexivity. }
    rewrite (run_bind_return _ _ _ _ _
               (generated_subfolder_is_reused env
                  (logged (resolution_log again (dir (disk (snd first))))
                          (snd first))
                  (generated env w) (dir (disk w)) (requested_prefix again)
                  Hreq ltac:(discriminate) Hdir)).
    eexists. reflexivity.
  - apply short_draw_breaks_pattern, Hshort.
Qed.

(** The theorem with [Math.random()] equal to one half, which prints as
    [0.i] in base 36: the subfolder is [site-i]. *)
Lemma short_draw_witness :
  let env := sample_env "0.i" login_done None in
  let given : gmap string string := {[ "sourcePath" := "/site/index.html" ]} in
  let start :=
    holding {[ "bucketName" := JStr "b1"; "projectId" := JStr "p1" ]} in
  let first := callTool env (Request "deploy_to_gcs" (Some given)) start in
  let second :=
    callTool env (Request "deploy_to_gcs" (Some given)) (snd first) in
  (∃ w1, first =
         deployment env (Some "/site/index.html") (Some (JStr "b1"))
           (Some (JStr "p1")) (Some (JStr "site-i")) w1)
  ∧ (∃ w2, second =
           deployment env (Some "/site/index.html") (Some (JStr "b1"))
             (Some (JStr "p1")) (Some (JStr "site-i")) w2)
  ∧ site_pattern "site-i" = false.
Proof.
  intros env given start first second.
  assert (Hshort : String.length (random36 env (draws start)) < 8)
    by (simpl; lia).
  exact (short_draw_gives_short_sticky_subfolder env given given start
           undefined eq_refl eq_refl eq_refl eq_refl eq_refl Hshort).
Defined.

(** What the two calls answer. *)
Lemma short_draw_example :
  let env := sample_env "0.i" login_done None in
  let call :=
    Request "deploy_to_gcs" (Some {[ "sourcePath" := "/site/index.html" ]}) in
  let start :=
    holding {[ "bucketName" := JStr "b1"; "projectId" := JStr "p1" ]} in
  let first := callTool env call start in
  let second := callTool env call (snd first) in
  fst (getSubfolder start) = Return undefined
  ∧ fst (getSubfolder (snd first)) = Return (Some (JStr "site-i"))
  ∧ fst first =
      Return {| text :=
                  preflight "/site/index.html" (Some (JStr "b1"))
                    (Some (JStr "p1")) "dev@example.com"
                    (Some (JStr "site-i"))
                  +:+ nl +:+ nl +:+
                  "Successfully deployed to GCS. Public URLs:" +:+ nl +:+
                  "https://storage.googleapis.com/b1/site-i/index.html";
                isError := false |}
  ∧ fst second = fst first.
Proof. repeat split; vm_compute; reflexivity. Qed.

End StickySubfolder.

(** ** The arguments of the packaging script *)

Module PackageFacts.

Import PackageScript StringFacts.

Lemma occurs_cons (needle : string) (c : ascii) (s : string) :
  occurs needle s → occurs needle (String c s).
Proof.
  intros (before & after & ->). exists (String c before), after.
  rewrite append_cons. reflexivity.
Qed.

Lemma occurs_eq_head (s : string) : occurs "=" (String "=" s).
Proof. exists "", s. reflexivity. Qed.

Lemma split_eq_plain (s : string) : ¬ occurs "=" s → split_eq s = [s].
Proof.
  induction s as [|c s IH]; intros Hplain; [reflexivity|]. simpl.
  destruct (Ascii.eqb_spec c "=") as [->|Hc].
  - destruct Hplain. apply occurs_eq_head.
  - rewrite IH; [reflexivity|]. intros Hocc. apply Hplain, occurs_cons, Hocc.
Qed.

Lemma split_eq_cut (first rest : string) :
  ¬ occurs "=" first →
  split_eq (first +:+ "=" +:+ rest) = first :: split_eq rest.
Proof.
  induction first as [|c first IH]; intros Hplain; [reflexivity|].
  rewrite append_cons. simpl.
  destruct (Ascii.eqb_spec c "=") as [->|Hc].
  - destruct Hplain. apply occurs_eq_head.
  - rewrite IH; [reflexivity|]. intros Hocc. apply Hplain, occurs_cons, Hocc.
Qed.

Lemma split_eq_pieces (s : string) :
  Forall (λ piece, ¬ occurs "=" piece) (split_eq s).
Proof.
  induction s as [|c s IH]; simpl.
  - constructor; [|constructor].
    intros (before & after & Heq). destruct before; discriminate Heq.
  - destruct (Ascii.eqb_spec c "=") as [->|Hc].
    + constructor; [|exact IH].
      intros (before & after & Heq). destruct before; discriminate Heq.
    + destruct (split_eq s) as [|piece pieces].
      * constructor; [|constructor].
        intros (before & after & Heq).
        destruct before as [|c' [|]]; try discriminate Heq.
        injection Heq as -> _. destruct Hc. reflexivity.
      * inversion IH as [|? ? Hpiece Hpieces]; subst.
        constructor; [|exact Hpieces].
        intros (before & after & Heq). destruct before as [|c' before].
        -- injection Heq as -> _. destruct Hc. reflexivity.
        -- rewrite append_cons in Heq. injection Heq as _ Heq.
           apply Hpiece. exists before, after. exact Heq.
Qed.

Lemma append_assoc (a b c : string) : (a +:+ b) +:+ c = a +:+ (b +:+ c).
Proof.
  induction a as [|x a IH]; [reflexivity|].
  rewrite !append_cons, IH. reflexivity.
Qed.

Lemma prefix_append (p s : string) : String.prefix p (p +:+ s) = true.
Proof. apply prefix_occurs. exists s. reflexivity. Qed.

Lemma find_first {A} (test : A → bool) (before after : list A) (x : A) :
  Forall (λ a, test a = false) before → test x = true →
  List.find test (before ++ x :: after) = Some x.
Proof.
  intros Hbefore Hx. induction Hbefore as [|a before Ha _ IH]; simpl.
  - rewrite Hx. reflexivity.
  - rewrite Ha. exact IH.
Qed.

Lemma dashes_plain (name : string) :
  ¬ occurs "=" name → ¬ occurs "=" ("--" +:+ name).
Proof.
  intros Hname (before & after & Heq).
  destruct before as [|c1 [|c2 before]]; try discriminate Heq.
  rewrite !append_cons in Heq. injection Heq as _ _ Heq.
  apply Hname. exists before, after. exact Heq.
Qed.

Lemma getArg_first (before after : list string) (name tail : string) :
  ¬ occurs "=" name →
  Forall (λ arg, String.prefix ("--" +:+ name +:+ "=") arg = false) before →
  getArg (before ++ ("--" +:+ name +:+ "=" +:+ tail) :: after) name
  = split_eq tail !! 0.
Proof.
  intros Hname Hbefore. unfold getArg.
  rewrite (find_first _ before after ("--" +:+ name +:+ "=" +:+ tail) Hbefore).
  - replace ("--" +:+ name +:+ "=" +:+ tail)
      with (("--" +:+ name) +:+ "=" +:+ tail)
      by (rewrite !append_assoc; reflexivity).
    rewrite split_eq_cut by (apply dashes_plain, Hname). reflexivity.
  - replace ("--" +:+ name +:+ "=" +:+ tail)
      with (("--" +:+ name +:+ "=") +:+ tail)
      by (rewrite !append_assoc; reflexivity).
    apply prefix_append.
Qed.

(** X22.  The first argument that starts with [--name=] decides: [getArg]
    returns what follows, up to the next [=] if there is one.  So a
    value without [=] comes back whole, and a value with [=] is cut. *)
Theorem getArg_takes_first_value (args before after : list string)
    (name value rest : string) :
  ¬ occurs "=" name →
  ¬ occurs "=" value →
  Forall (λ arg, String.prefix ("--" +:+ name +:+ "=") arg = false) before →
  (args = before ++ ("--" +:+ name +:+ "=" +:+ value) :: after →
   getArg args name = Some value)
  ∧ (args = before
            ++ ("--" +:+ name +:+ "=" +:+ value +:+ "=" +:+ rest) :: after →
     getArg args name = Some value).
Proof.
  intros Hname Hvalue Hbefore.
  split; intros ->; rewrite getArg_first by assumption.
  - rewrite split_eq_plain by exact Hvalue. reflexivity.
  - rewrite split_eq_cut by exact Hvalue. reflexivity.
Qed.

(** The theorem on the usual command line, and on a value with [=]. *)
Lemma getArg_witness :
  getArg ["--platform=linux"; "--arch=x64"] "arch" = Some "x64"
  ∧ getArg ["--platform=a=b"] "platform" = Some "a".
Proof.
  assert (Hname : ∀ name, includes name "=" = false → ¬ occurs "=" name).
  { intros name Hno Hocc. apply includes_occurs in Hocc. congruence. }
  split.
  - destruct (getArg_takes_first_value ["--platform=linux"; "--arch=x64"]
                ["--platform=linux"] [] "arch" "x64" "") as [Hwhole _].
    + apply Hname. reflexivity.
    + apply Hname. reflexivity.
    + repeat constructor.
    + apply Hwhole. reflexivity.
  - destruct (getArg_takes_first_value ["--platform=a=b"] [] [] "platform"
                "a" "b") as [_ Hcut].
    + apply Hname. reflexivity.
    + apply Hname. reflexivity.
    + constructor.
    + apply Hcut. reflexivity.
Defined.

(** X23.  What [getArg] returns never holds an [=]. *)
Theorem getArg_value_has_no_eq (args : list string) (name value : string) :
  getArg args name = Some value → ¬ occurs "=" value.
Proof.
  unfold getArg. destruct (List.find _ args) as [found|]; [|discriminate].
  intros Hpiece.
  pose proof (split_eq_pieces found) as Hall.
  rewrite Forall_lookup in Hall. exact (Hall 1 value Hpiece).
Qed.

Lemma getArg_value_witness : ¬ occurs "=" "a".
Proof.
  apply (getArg_value_has_no_eq ["--platform=a=b"] "platform" "a").
  reflexivity.
Defined.

Lemma split_eq_two (first rest : string) :
  2 ≤ length (split_eq (first +:+ "=" +:+ rest)).
Proof.
  assert (Hone : ∀ s, 1 ≤ length (split_eq s)).
  { induction s as [|c s IH]; simpl; [lia|].
    destruct (Ascii.eqb c "="); simpl; [lia|].
    destruct (split_eq s); simpl in *; lia. }
  induction first as [|c first IH].
  - change ("" +:+ "=" +:+ rest) with (String "=" rest). simpl.
    specialize (Hone rest). lia.
  - rewrite append_cons. simpl.
    destruct (Ascii.eqb c "="); simpl; [lia|].
    destruct (split_eq (first +:+ "=" +:+ rest)); simpl in *; lia.
Qed.

(** X24.  [getArg] returns [null] exactly when no argument starts with
    [--name=]. *)
Theorem getArg_null_iff (args : list string) (name : string) :
  getArg args name = None ↔
  Forall (λ arg, String.prefix ("--" +:+ name +:+ "=") arg = false) args.
Proof.
  unfold getArg. split.
  - destruct (List.find _ args) as [found|] eqn:Hfind.
    + apply find_some in Hfind as [_ Hprefix].
      apply prefix_occurs in Hprefix as [tail ->].
      intros Hnone. apply lookup_ge_None in Hnone.
      pose proof (split_eq_two ("--" +:+ name) tail) as Htwo.
      rewrite <- !append_assoc in Htwo. rewrite <- !append_assoc in Hnone.
      lia.
    + intros _. apply Forall_forall. intros arg Harg.
      apply (find_none _ _ Hfind arg). apply list_elem_of_In, Harg.
  - intros Hall.
    destruct (List.find _ args) as [found|] eqn:Hfind; [|reflexivity].
    apply find_some in Hfind as [Hin Hprefix].
    rewrite Forall_forall in Hall.
    rewrite (Hall found) in Hprefix; [discriminate|].
    apply list_elem_of_In, Hin.
Qed.

(** X25.  An argument [--platform=] or [--arch=] with nothing after it counts
    as missing: the script prints its usage and exits. *)
Theorem empty_value_is_usage_error (before after : list string) :
  (Forall (λ arg, String.prefix "--platform=" arg = false) before →
   archive_of (before ++ "--platform=" :: after) = None)
  ∧ (Forall (λ arg, String.prefix "--arch=" arg = false) before →
     archive_of (before ++ "--arch=" :: after) = None).
Proof.
  assert (Hname : ∀ name, includes name "=" = false → ¬ occurs "=" name).
  { intros name Hno Hocc. apply includes_occurs in Hocc. congruence. }
  split; intros Hbefore; unfold archive_of.
  - assert (Hget : getArg (before ++ "--platform=" :: after) "platform"
                   = Some "")
      by exact (getArg_first before after "platform" ""
                  (Hname "platform" eq_refl) Hbefore).
    rewrite Hget. reflexivity.
  - assert (Hget : getArg (before ++ "--arch=" :: after) "arch" = Some "")
      by exact (getArg_first before after "arch" ""
                  (Hname "arch" eq_refl) Hbefore).
    rewrite Hget. simpl. rewrite orb_true_r. reflexivity.
Qed.

Lemma empty_value_witness :
  archive_of ["--arch=x64"; "--platform="] = None.
Proof.
  destruct (empty_value_is_usage_error ["--arch=x64"] []) as [Hplatform _].
  apply Hplatform. repeat constructor.
Defined.

End PackageFacts.

(** ** The traversal of a source directory *)

Module TraversalFacts.

Import GcsDeployServer Samples.

Lemma node_induction (P : node → Prop) :
  P File → P Special →
  (∀ e, P (Unlistable e)) → (∀ e, P (NoStat e)) →
  (∀ entries, Forall (λ entry, P entry.2) entries → P (Directory entries)) →
  ∀ n, P n.
Proof.
  intros HFile HSpecial HUnlistable HNoStat HDirectory.
  refine (fix IH (n : node) : P n :=
            match n with
            | File => HFile
            | Special => HSpecial
            | Unlistable e => HUnlistable e
            | NoStat e => HNoStat e
            | Directory entries =>
                HDirectory entries
                  ((fix each (l : list (string * node))
                      : Forall (λ entry, P entry.2) l :=
                      match l with
                      | [] => List.Forall_nil _
                      | entry :: rest =>
                          List.Forall_cons _ entry rest (IH entry.2)
                            (each rest)
                      end) entries)
            end).
Qed.

Section Traversal.

Context (env : Env).

(** One step of the [forEach] of [getAllFiles]. *)
Lemma getAllFiles_step (dirPath file : string) (entry : node)
    (rest : list (string * node)) (acc : list string) :
  getAllFiles env dirPath (Directory ((file, entry) :: rest)) acc =
  match entry with
  | NoStat e => Throw e
  | Directory _ | Unlistable _ =>
      match getAllFiles env (dirPath +:+ "/" +:+ file) entry acc with
      | Return acc' => getAllFiles env dirPath (Directory rest) acc'
      | Throw e => Throw e
      end
  | File | Special =>
      getAllFiles env dirPath (Directory rest)
        (acc ++ [path_join3 env dirPath "/" file])
  end.
Proof. destruct entry; reflexivity. Qed.

(** A directory below which nothing fails is listed: the accumulator is
    kept and one path per entry that is not a directory is appended. *)
Lemma getAllFiles_listable (n : node) :
  ∀ entries, n = Directory entries → listable n = true →
  ∀ dirPath acc,
    ∃ found, getAllFiles env dirPath n acc = Return (acc ++ found)
             ∧ length found = file_count n.
Proof.
  induction n as [| | | |entries IH] using node_induction;
    intros entries' Heq Hlistable dirPath acc; try discriminate Heq.
  clear entries' Heq. revert acc.
  induction entries as [|[file entry] rest IHrest]; intros acc.
  - exists []. rewrite app_nil_r. split; reflexivity.
  - inversion IH as [|? ? Hentry Hrest]; subst. simpl in Hentry.
    simpl in Hlistable. apply andb_prop in Hlistable as [Hhere Hbelow].
    specialize (IHrest Hrest Hbelow).
    rewrite getAllFiles_step.
    destruct entry as [| |below|e|e]; try discriminate Hhere.
    + destruct (IHrest (acc ++ [path_join3 env dirPath "/" file]))
        as (found & -> & Hlength).
      exists (path_join3 env dirPath "/" file :: found).
      rewrite <- app_assoc. split; [reflexivity|].
      simpl in *. rewrite Hlength. reflexivity.
    + destruct (IHrest (acc ++ [path_join3 env dirPath "/" file]))
        as (found & -> & Hlength).
      exists (path_join3 env dirPath "/" file :: found).
      rewrite <- app_assoc. split; [reflexivity|].
      simpl in *. rewrite Hlength. reflexivity.
    + destruct (Hentry below eq_refl Hhere (dirPath +:+ "/" +:+ file) acc)
        as (inner & -> & Hinner).
      destruct (IHrest (acc ++ inner)) as (found & -> & Hlength).
      exists (inner ++ found). rewrite <- app_assoc. split; [reflexivity|].
      rewrite length_app. simpl in *. rewrite Hinner, Hlength. reflexivity.
Qed.

(** A directory below which something fails to stat or to list is not
    listed: [getAllFiles] throws. *)
Lemma getAllFiles_unlistable (n : node) :
  ∀ entries, n = Directory entries → listable n = false →
  ∀ dirPath acc, ∃ e, getAllFiles env dirPath n acc = Throw e.
Proof.
  induction n as [| | | |entries IH] using node_induction;
    intros entries' Heq Hfault dirPath acc; try discriminate Heq.
  clear entries' Heq. revert acc.
  induction entries as [|[file entry] rest IHrest]; intros acc.
  - discriminate Hfault.
  - inversion IH as [|? ? Hentry Hrest]; subst. simpl in Hentry.
    simpl in Hfault. rewrite getAllFiles_step.
    destruct entry as [| |below|e|e]; simpl in Hfault.
    + apply (IHrest Hrest Hfault).
    + apply (IHrest Hrest Hfault).
    + destruct (forallb (λ entry, listable entry.2) below) eqn:Hbelow.
      * destruct (getAllFiles_listable (Directory below) below eq_refl Hbelow
                    (dirPath +:+ "/" +:+ file) acc) as (inner & -> & _).
        apply (IHrest Hrest Hfault).
      * destruct (Hentry below eq_refl Hbelow (dirPath +:+ "/" +:+ file) acc)
          as [e ->].
        exists e. reflexivity.
    + exists e. reflexivity.
    + exists e. reflexivity.
Qed.

End Traversal.

(** X20.  [getAllFiles] lists a directory exactly when nothing at or below it
    fails to stat or to list.  It then returns the accumulator followed
    by one path for each entry below that is not a directory (special
    files included); otherwise it throws. *)
Theorem getAllFiles_lists_what_it_can (env : Env) (dirPath : string)
    (entries : list (string * node)) (acc : list string) :
  (listable (Directory entries) = true →
   ∃ found,
     getAllFiles env dirPath (Directory entries) acc = Return (acc ++ found)
     ∧ length found = file_count (Directory entries))
  ∧ (listable (Directory entries) = false →
     ∃ e, getAllFiles env dirPath (Directory entries) acc = Throw e).
Proof.
  split; intros Hlist.
  - apply (getAllFiles_listable env (Directory entries) entries eq_refl Hlist).
  - apply (getAllFiles_unlistable env (Directory entries) entries eq_refl
             Hlist).
Qed.

(** The theorem on the sample tree: two files are found. *)
Lemma getAllFiles_witness :
  ∃ found,
    getAllFiles laptop "/site"
      (Directory [("a.txt", File); ("sub", Directory [("b.txt", File)])]) []
    = Return ([] ++ found)
    ∧ length found = 2.
Proof.
  destruct (getAllFiles_lists_what_it_can laptop "/site"
              [("a.txt", File); ("sub", Directory [("b.txt", File)])] [])
    as [Hlisted _].
  apply Hlisted. reflexivity.
Defined.

(** The files of the sample tree, in the order of the traversal. *)
Lemma getAllFiles_example :
  getAllFiles laptop "/site" sample_tree []
  = Return ["/site/a.txt"; "/site/sub/b.txt"].
Proof. reflexivity. Qed.

(** X21.  [getAllFiles] goes through the entries of a directory in the order
    of the listing: listing the entries [first ++ second] is listing
    [first] and then, from what that returned, [second]; a failure in
    [first] is the failure of the whole. *)
Theorem getAllFiles_in_listing_order (env : Env) (dirPath : string)
    (first second : list (string * node)) (acc : list string) :
  getAllFiles env dirPath (Directory (first ++ second)) acc =
  match getAllFiles env dirPath (Directory first) acc with
  | Return found => getAllFiles env dirPath (Directory second) found
  | Throw e => Throw e
  end.
Proof.
  revert acc. induction first as [|[file entry] first IH]; intros acc.
  - reflexivity.
  - rewrite <- app_comm_cons, !getAllFiles_step.
    destruct entry as [| |below|e|e]; try apply IH; try reflexivity.
    + destruct (getAllFiles env (dirPath +:+ "/" +:+ file) (Directory below)
                  acc); [apply IH|reflexivity].
Qed.

End TraversalFacts.

(** ** Uploads *)

Module UploadFacts.

Import GcsDeployServer ServerFacts TraversalFacts Samples.

Section Uploads.

Context (env : Env).

Lemma uploadFile_run (target : bucket) (filePath destination : string)
    (w : world) :
  uploadFile env target filePath destination w =
  match b_upload target (trace w) filePath destination
          (content_type env filePath) with
  | Some e => (Throw e, logged [upload_event env target filePath destination] w)
  | None =>
      (Return (public_url target destination),
       logged (upload_event env target filePath destination
               :: make_public_log target
                    (trace w ++ [upload_event env target filePath destination])
                    destination) w)
  end.
Proof.
  unfold uploadFile, make_public_log. fold (content_type env filePath).
  rewrite run_bind. cbv beta zeta.
  fold (upload_event env target filePath destination).
  destruct (b_upload target (trace w) filePath destination _);
    [reflexivity|].
  rewrite run_bind. unfold try_catch. cbv beta zeta. simpl trace.
  destruct (b_makePublic target _ destination); unfold logged; simpl;
    rewrite <- ?app_assoc; reflexivity.
Qed.

Lemma make_public_log_uploads (target : bucket) (seen : list event)
    (destination : string) :
  filter is_upload (make_public_log target seen destination) = [].
Proof.
  unfold make_public_log. destruct (b_makePublic target seen destination);
    reflexivity.
Qed.

(** When the store takes every upload and every destination can be
    joined, the loop of [deploy] returns. *)
Lemma upload_each_run (target : bucket) (sourcePath : string) (prefix : value)
    (join : string → string) (files : list string) :
  (∀ seen file destination contentType,
     b_upload target seen file destination contentType = None) →
  (∀ rest, path_join env prefix rest = Return (join rest)) →
  ∀ urls w,
    ∃ added,
      upload_each env target sourcePath prefix files urls w
      = (Return (urls
                 ++ map (λ file,
                           public_url target
                             (join (path_relative env sourcePath file)))
                        files),
         logged added w)
      ∧ filter is_upload added
        = map (λ file,
                 upload_event env target file
                   (join (path_relative env sourcePath file))) files.
Proof.
  intros Haccepts Hjoin.
  induction files as [|file files IH]; intros urls w.
  - exists []. simpl. rewrite app_nil_r, logged_nil. split; reflexivity.
  - simpl. rewrite Hjoin. unfold lift at 1. rewrite run_bind. cbv beta iota.
    rewrite run_bind, uploadFile_run, Haccepts.
    destruct (IH (urls ++ [public_url target
                             (join (path_relative env sourcePath file))])
                 (logged (upload_event env target file
                            (join (path_relative env sourcePath file))
                          :: make_public_log target
                               (trace w ++ [upload_event env target file
                                  (join (path_relative env sourcePath file))])
                               (join (path_relative env sourcePath file))) w))
      as (added & -> & Hadded).
    eexists. rewrite logged_logged, <- app_assoc. split; [reflexivity|].
    rewrite filter_app, Hadded.
    rewrite filter_cons. simpl. rewrite make_public_log_uploads. reflexivity.
Qed.

Lemma upload_each_stops (target : bucket) (sourcePath : string)
    (prefix : value) (join : string → string) (done never : list string)
    (bad : string) (e : js_error) :
  (∀ seen file destination contentType,
     file ∈ done →
     b_upload target seen file destination contentType = None) →
  (∀ seen destination contentType,
     b_upload target seen bad destination contentType = Some e) →
  (∀ rest, path_join env prefix rest = Return (join rest)) →
  ∀ urls w,
    ∃ added,
      upload_each env target sourcePath prefix (done ++ bad :: never) urls w
      = (Throw e, logged added w)
      ∧ filter is_upload added
        = map (λ file,
                 upload_event env target file
                   (join (path_relative env sourcePath file)))
              (done ++ [bad]).
Proof.
  intros Hdone Hbad Hjoin.
  induction done as [|file done IH]; intros urls w.
  - simpl. rewrite Hjoin. unfold lift at 1. rewrite run_bind. cbv beta iota.
    rewrite run_bind, uploadFile_run, Hbad.
    eexists. split; reflexivity.
  - simpl. rewrite Hjoin. unfold lift at 1. rewrite run_bind. cbv beta iota.
    rewrite run_bind, uploadFile_run, Hdone by set_solver.
    destruct IH with
      (urls := urls ++ [public_url target
                          (join (path_relative env sourcePath file))])
      (w := logged (upload_event env target file
                      (join (path_relative env sourcePath file))
                    :: make_public_log target
                         (trace w ++ [upload_event env target file
                            (join (path_relative env sourcePath file))])
                         (join (path_relative env sourcePath file))) w)
      as (added & -> & Hadded).
    { intros seen other destination contentType Hin. apply Hdone.
      set_solver. }
    eexists. rewrite logged_logged. split; [reflexivity|].
    rewrite filter_app, Hadded.
    rewrite filter_cons. simpl. rewrite make_public_log_uploads. reflexivity.
Qed.

Lemma deploy_run (sourcePath : string) (bucketName prefix : value)
    (stats : node) :
  fs_stat env sourcePath = stats → (∀ e, stats ≠ NoStat e) →
  deploy env sourcePath bucketName prefix =
  try_catch (transfer env (storage_bucket env bucketName) sourcePath prefix
               stats) (recover env).
Proof.
  intros Hstat Hsome. unfold deploy. rewrite Hstat.
  destruct stats; try reflexivity. destruct (Hsome e eq_refl).
Qed.

(** Whatever the error and whatever the login flow does, the [catch]
    block of [deploy] throws, and contacts the object store no more. *)
Lemma recover_throws {A} (error : js_error) (w : world) :
  ∃ thrown added,
    @recover env A error w = (Throw thrown, logged added w)
    ∧ filter is_store_call added = []
    ∧ filter is_spawn added = if isAuthError error then [login] else [].
Proof.
  destruct (isAuthError error) eqn:Hauth.
  - rewrite recover_auth by exact Hauth.
    eexists _, [_; login]. unfold announced. rewrite logged_logged.
    split; [reflexivity|]. split; reflexivity.
  - unfold recover. rewrite Hauth. exists error, [].
    rewrite logged_nil. split; [reflexivity|]. split; reflexivity.
Qed.

End Uploads.

(** X14.  [uploadFile] throws exactly when the upload itself is refused, with
    the error of the store and without trying to make anything public.
    Otherwise it returns the public URL of the object, also when making
    it public fails: that only adds a warning to the console. *)
Theorem uploadFile_outcome (env : Env) (target : bucket)
    (filePath destination : string) (w : world) :
  (∀ e,
     b_upload target (trace w) filePath destination (content_type env filePath)
       = Some e →
     uploadFile env target filePath destination w
     = (Throw e, logged [upload_event env target filePath destination] w))
  ∧ (b_upload target (trace w) filePath destination
       (content_type env filePath) = None →
     ∃ notes,
       uploadFile env target filePath destination w
       = (Return (public_url target destination),
          logged (upload_event env target filePath destination
                  :: MakePublic (b_name target) destination :: notes) w)
       ∧ forallb is_console notes = true).
Proof.
  split.
  - intros e Hrefused. rewrite uploadFile_run, Hrefused. reflexivity.
  - intros Htaken. rewrite uploadFile_run, Htaken. unfold make_public_log.
    eexists. split; [reflexivity|].
    destruct (b_makePublic target _ destination); reflexivity.
Qed.

(** The theorem on a bucket that takes the upload and refuses to make it
    public, and on one that refuses the upload. *)
Lemma uploadFile_witness :
  (∃ notes,
     uploadFile (tree_env (picky_bucket "" forbidden)) 
       (picky_bucket "" forbidden (Some (JStr "b1")))
       "/site/a.txt" "site-k3x9qa/a.txt" fresh
     = (Return "https://storage.googleapis.com/b1/site-k3x9qa/a.txt",
        logged (upload_event (tree_env (picky_bucket "" forbidden))
                  (picky_bucket "" forbidden (Some (JStr "b1")))
                  "/site/a.txt" "site-k3x9qa/a.txt"
                :: MakePublic (Some (JStr "b1")) "site-k3x9qa/a.txt" :: notes)
               fresh)
     ∧ forallb is_console notes = true)
  ∧ uploadFile laptop (sample_bucket (Some forbidden) (Some (JStr "b1")))
      "/site/a.txt" "site-k3x9qa/a.txt" fresh
    = (Throw forbidden,
       logged [upload_event laptop
                 (sample_bucket (Some forbidden) (Some (JStr "b1")))
                 "/site/a.txt" "site-k3x9qa/a.txt"] fresh).
Proof.
  split.
  - apply (uploadFile_outcome (tree_env (picky_bucket "" forbidden))
             (picky_bucket "" forbidden (Some (JStr "b1")))
             "/site/a.txt" "site-k3x9qa/a.txt" fresh).
    reflexivity.
  - apply (uploadFile_outcome laptop
             (sample_bucket (Some forbidden) (Some (JStr "b1")))
             "/site/a.txt" "site-k3x9qa/a.txt" fresh).
    reflexivity.
Defined.

(** X16.  A source directory below which nothing fails, deployed to a store
    that takes every upload: [deploy] returns one public URL per file
    below the directory, and has uploaded exactly those files, each
    once. *)
Theorem deploy_directory_uploads_every_file (env : Env)
    (sourcePath : string) (bucketName prefix : value)
    (entries : list (string * node)) (join : string → string) (w : world) :
  fs_stat env sourcePath = Directory entries →
  listable (Directory entries) = true →
  (∀ seen file destination contentType,
     b_upload (storage_bucket env bucketName) seen file destination
       contentType = None) →
  (∀ rest, path_join env prefix rest = Return (join rest)) →
  ∃ files added,
    getAllFiles env sourcePath (Directory entries) [] = Return files
    ∧ length files = file_count (Directory entries)
    ∧ deploy env sourcePath bucketName prefix w
      = (Return (map (λ file,
                        public_url (storage_bucket env bucketName)
                          (join (path_relative env sourcePath file))) files),
         logged added w)
    ∧ filter is_upload added
      = map (λ file,
               upload_event env (storage_bucket env bucketName) file
                 (join (path_relative env sourcePath file))) files.
Proof.
  intros Hstat Hlistable Haccepts Hjoin.
  destruct (getAllFiles_listable env (Directory entries) entries eq_refl
              Hlistable sourcePath []) as (files & Hfiles & Hcount).
  simpl app in Hfiles.
  destruct (upload_each_run env (storage_bucket env bucketName) sourcePath
              prefix join files Haccepts Hjoin [] w)
    as (added & Hrun & Hadded).
  exists files, added. split; [exact Hfiles|]. split; [exact Hcount|].
  split; [|exact Hadded].
  rewrite (deploy_run env sourcePath bucketName prefix (Directory entries)
             Hstat) by discriminate.
  unfold try_catch, transfer. rewrite Hfiles. unfold lift at 1.
  rewrite run_bind. cbv beta iota. rewrite Hrun. reflexivity.
Qed.

(** The theorem on the sample tree. *)
Lemma deploy_directory_witness :
  ∃ files added,
    getAllFiles (tree_env (sample_bucket None)) "/site" sample_tree []
      = Return files
    ∧ length files = 2
    ∧ deploy (tree_env (sample_bucket None)) "/site" (Some (JStr "b1"))
        (Some (JStr "site-k3x9qa")) fresh
      = (Return (map (λ file,
                        public_url (sample_bucket None (Some (JStr "b1")))
                          ("site-k3x9qa/" +:+
                           path_relative (tree_env (sample_bucket None))
                             "/site" file)) files),
         logged added fresh)
    ∧ filter is_upload added
      = map (λ file,
               upload_event (tree_env (sample_bucket None))
                 (sample_bucket None (Some (JStr "b1"))) file
                 ("site-k3x9qa/" +:+
                  path_relative (tree_env (sample_bucket None)) "/site" file))
            files.
Proof.
  apply (deploy_directory_uploads_every_file (tree_env (sample_bucket None))
           "/site" (Some (JStr "b1")) (Some (JStr "site-k3x9qa"))
           [("a.txt", File); ("sub", Directory [("b.txt", File)])]
           (λ rest, "site-k3x9qa/" +:+ rest) fresh);
    reflexivity.
Defined.

(** The URLs of the sample tree. *)
Lemma deploy_directory_example :
  fst (deploy (tree_env (sample_bucket None)) "/site" (Some (JStr "b1"))
         (Some (JStr "site-k3x9qa")) fresh)
  = Return ["https://storage.googleapis.com/b1/site-k3x9qa/a.txt";
            "https://storage.googleapis.com/b1/site-k3x9qa/sub/b.txt"].
Proof. reflexivity. Qed.




(** X15.  A source that is a single file, deployed to a store that takes the
    upload: [deploy] returns exactly one URL, for the destination made of
    the prefix and the base name of the file, after one upload and one
    attempt to make the object public. *)
Theorem deploy_file_returns_one_url (env : Env) (sourcePath : string)
    (bucketName prefix : value) (destination : string) (w : world) :
  fs_stat env sourcePath = File →
  path_join env prefix (path_basename env sourcePath) = Return destination →
  b_upload (storage_bucket env bucketName) (trace w) sourcePath destination
    (content_type env sourcePath) = None →
  deploy env sourcePath bucketName prefix w
  = (Return [public_url (storage_bucket env bucketName) destination],
     logged (upload_event env (storage_bucket env bucketName) sourcePath
               destination
             :: make_public_log (storage_bucket env bucketName)
                  (trace w ++ [upload_event env (storage_bucket env bucketName)
                                 sourcePath destination])
                  destination) w).
Proof.
  intros Hstat Hjoin Htaken.
  rewrite (deploy_run env sourcePath bucketName prefix File Hstat)
    by discriminate.
  unfold try_catch, transfer. rewrite Hjoin. unfold lift at 1.
  rewrite run_bind. cbv beta iota.
  rewrite run_bind, uploadFile_run, Htaken. reflexivity.
Qed.

Lemma deploy_file_witness :
  deploy laptop "/site/index.html" (Some (JStr "b1"))
    (Some (JStr "site-k3x9qa")) fresh
  = (Return ["https://storage.googleapis.com/b1/site-k3x9qa/index.html"],
     logged [upload_event laptop (sample_bucket None (Some (JStr "b1")))
               "/site/index.html" "site-k3x9qa/index.html";
             MakePublic (Some (JStr "b1")) "site-k3x9qa/index.html"] fresh).
Proof.
  apply (deploy_file_returns_one_url laptop "/site/index.html"
           (Some (JStr "b1")) (Some (JStr "site-k3x9qa"))
           "site-k3x9qa/index.html" fresh);
    reflexivity.
Defined.

(** X18.  A source directory that holds no file at all, however many empty
    directories it holds: [deploy] returns an empty list of URLs and does
    nothing else. *)
Theorem deploy_empty_directory (env : Env) (sourcePath : string)
    (bucketName prefix : value) (entries : list (string * node)) (w : world) :
  fs_stat env sourcePath = Directory entries →
  listable (Directory entries) = true →
  file_count (Directory entries) = 0 →
  deploy env sourcePath bucketName prefix w = (Return [], w).
Proof.
  intros Hstat Hlistable Hcount.
  destruct (getAllFiles_listable env (Directory entries) entries eq_refl
              Hlistable sourcePath []) as (files & Hfiles & Hlength).
  rewrite Hcount in Hlength. destruct files; [|discriminate Hlength].
  rewrite (deploy_run env sourcePath bucketName prefix (Directory entries)
             Hstat) by discriminate.
  unfold try_catch, transfer. rewrite Hfiles. reflexivity.
Qed.

Lemma deploy_empty_directory_witness :
  let env := Build_Env (random36 laptop) (spawner laptop)
               (storage_bucket laptop)
               (λ _, Directory [("empty", Directory [])])
               (path_join laptop) (path_join3 laptop) (path_basename laptop)
               (path_relative laptop) (mime_lookup laptop) in
  deploy env "/site" (Some (JStr "b1")) (Some (JStr "site-k3x9qa")) fresh
  = (Return [], fresh).
Proof.
  intros env.
  apply (deploy_empty_directory env "/site" (Some (JStr "b1"))
           (Some (JStr "site-k3x9qa")) [("empty", Directory [])] fresh);
    reflexivity.
Defined.



End UploadFacts.

(** ** Saving and reading back *)

Module RoundTripFacts.

Import ConfigManager GcsDeployServer ConfigFacts ServerFacts Samples.

Lemma saved_twice (d : config_dir) (config : gmap string value) :
  saved (saved d config) config = saved d config.
Proof.
  unfold saved, JSON.stringify, merge. simpl.
  apply (f_equal (λ props, Dir (Data (Encodes (JObj props))))).
  apply map_eq. intros key.
  rewrite !lookup_omap, !lookup_union, !lookup_fmap, !lookup_omap,
    !lookup_union, !lookup_fmap.
  destruct (config !! key) as [[v|]|], (own_props (held d) !! key);
    reflexivity.
Qed.

Lemma disk_after_save (config : gmap string value) (w : world) :
  write_failure (disk w) = None →
  disk (snd (save config w))
  = Store (saved (dir (disk w)) config) (mkdir_fault (disk w))
          (write_fault (disk w)).
Proof. intros Hw. rewrite save_run by exact Hw. reflexivity. Qed.



(** X2.  Saving the same object twice leaves the store as saving it once. *)
Theorem save_is_idempotent (config : gmap string value) (w : world) :
  write_failure (disk w) = None →
  readable (dir (disk w)) →
  disk (snd (save config (snd (save config w))))
  = disk (snd (save config w)).
Proof.
  intros Hw _.
  rewrite (disk_after_save config (snd (save config w)));
    rewrite disk_after_save by exact Hw.
  - simpl. rewrite saved_twice. reflexivity.
  - destruct (disk w) as [[|f] [e|] wf]; unfold write_failure in *; simpl in *;
      try discriminate Hw; exact Hw.
Qed.

Lemma save_is_idempotent_witness :
  disk (snd (save {[ "subfolder" := Some (JStr "site-k3x9qa") ]}
               (snd (save {[ "subfolder" := Some (JStr "site-k3x9qa") ]}
                          fresh))))
  = disk (snd (save {[ "subfolder" := Some (JStr "site-k3x9qa") ]} fresh)).
Proof.
  apply (save_is_idempotent {[ "subfolder" := Some (JStr "site-k3x9qa") ]}
           fresh).
  - reflexivity.
  - intros e He. discriminate He.
Defined.

(** X3.  Reading the configuration never writes it: [load] followed by the
    reading of a key leaves the directory as it is, draws no random
    number, and adds console output only, also when it throws on a file
    that holds [null]. *)
Theorem reading_never_writes (key : string) (w : world) :
  disk (snd ((load ≫= read key) w)) = disk w
  ∧ draws (snd ((load ≫= read key) w)) = draws w
  ∧ ∃ added, trace (snd ((load ≫= read key) w)) = trace w ++ added
             ∧ forallb is_console added = true.
Proof.
  rewrite (run_bind_return _ _ _ _ _ (load_run w)).
  destruct (held (dir (disk w))); simpl;
    (split; [reflexivity|split; [reflexivity|]]);
    exists (load_log (dir (disk w)));
    (split; [reflexivity|apply load_log_console]).
Qed.

(** X26.  A [save] that fails throws the error of the step that failed,
    after logging it.  When that step is [mkdirSync] or the open of the
    file, the stored record is as it was.  When it is the write itself,
    the file has been truncated by then: if what the write left does not
    parse, the record is lost, and [load] returns an empty one. *)
Theorem failed_save_outcome (config : gmap string value) (w : world)
    (e : js_error) :
  write_failure (disk w) = Some e →
  let after := snd (save config w) in
  fst (save config w) = Throw e
  ∧ last (trace after) = Some (ConsoleError "Error saving config:" (Some e))
  ∧ ((∀ e' remains, write_fault (disk w) ≠ Some (WriteFails e' remains)) →
     held (dir (disk after)) = held (dir (disk w)))
  ∧ (∀ e' garbled,
       write_fault (disk w) = Some (WriteFails e' (Garbled garbled)) →
       (dir (disk w) = NoDir → mkdir_fault (disk w) = None) →
       fst (load after) = Return (JObj ∅)).
Proof.
  intros Hfail after. unfold after. rewrite (save_fails config w e Hfail).
  split; [reflexivity|]. split; [|split].
  - simpl. rewrite app_assoc. apply last_snoc.
  - intros Hopen. simpl. apply after_failure_held, Hopen.
  - intros e' garbled Hwrite Hmkdir. rewrite load_run. simpl.
    destruct (after_failure_remains (disk w) e' (Garbled garbled)
                Hwrite Hmkdir) as [_ ->].
    reflexivity.
Qed.

(** The theorem on a full disk: the bucket that was stored is gone. *)
Lemma failed_save_witness :
  fst (getBucket full) = Return (Some (JStr "b1"))
  ∧ fst (save {[ "subfolder" := Some (JStr "docs") ]} full) = Throw no_space
  ∧ fst (load (snd (save {[ "subfolder" := Some (JStr "docs") ]} full)))
    = Return (JObj ∅).
Proof.
  destruct (failed_save_outcome {[ "subfolder" := Some (JStr "docs") ]} full
              no_space eq_refl) as (Hthrown & _ & _ & Hlost).
  split; [reflexivity|]. split; [exact Hthrown|].
  apply (Hlost no_space cut_short eq_refl). intros Hdir. discriminate Hdir.
Defined.

End RoundTripFacts.

(** ** More on the tool handlers *)

Module HandlerFacts.

Import ConfigManager GcsDeployServer ConfigFacts ServerFacts Frame Samples.
Import RoundTripFacts.

(** X9.  A call for a tool that the server does not have is refused with the
    method-not-found fault, and a call for one of the two tools that
    carries no arguments object throws when the handler reads its first
    argument; neither changes anything. *)
Theorem refused_calls_have_no_effect (env : Env) (req : request) (w : world) :
  (name req ≠ "configure_gcs" → name req ≠ "deploy_to_gcs" →
   callTool env req w = (Throw (McpError MethodNotFound "Unknown tool"), w))
  ∧ (arguments req = None →
     (name req = "configure_gcs" →
      callTool env req w
      = (Throw (TypeError_read "undefined" "bucketName"), w))
     ∧ (name req = "deploy_to_gcs" →
        callTool env req w
        = (Throw (TypeError_read "undefined" "sourcePath"), w))).
Proof.
  destruct req as [tool args]. simpl. split.
  - intros Hconfigure Hdeploy. unfold callTool. simpl.
    destruct (String.eqb_spec tool "configure_gcs"); [contradiction|].
    destruct (String.eqb_spec tool "deploy_to_gcs"); [contradiction|].
    reflexivity.
  - intros ->. split; intros ->; reflexivity.
Qed.

Lemma refused_calls_witness :
  callTool laptop (Request "list_buckets" (Some ∅)) configured
  = (Throw (McpError MethodNotFound "Unknown tool"), configured)
  ∧ callTool laptop (Request "deploy_to_gcs" None) configured
    = (Throw (TypeError_read "undefined" "sourcePath"), configured).
Proof.
  destruct (refused_calls_have_no_effect laptop
              (Request "list_buckets" (Some ∅)) configured) as [Hunknown _].
  destruct (refused_calls_have_no_effect laptop
              (Request "deploy_to_gcs" None) configured) as [_ Hbare].
  split.
  - apply Hunknown; discriminate.
  - apply Hbare; reflexivity.
Defined.

(** X8.  The [deploy_to_gcs] handler reads three arguments only: any other
    property of the request, a [projectId] for one, changes nothing of
    what the call does. *)
Theorem deploy_to_gcs_ignores_other_arguments (env : Env)
    (given : gmap string string) (key extra : string) (w : world) :
  key ∉ ["sourcePath"; "bucketName"; "destinationPrefix"] →
  callTool env (Request "deploy_to_gcs" (Some (<[key := extra]> given))) w
  = callTool env (Request "deploy_to_gcs" (Some given)) w.
Proof.
  intros Hkey. rewrite !callTool_deploy. unfold deploy_to_gcs, arg.
  rewrite !lookup_insert_ne by (intros ->; apply Hkey; repeat constructor).
  reflexivity.
Qed.

Lemma deploy_to_gcs_ignores_witness :
  callTool laptop
    (Request "deploy_to_gcs"
       (Some (<[ "projectId" := "other" ]>
                {[ "sourcePath" := "/site/index.html" ]})))
    configured
  = callTool laptop
      (Request "deploy_to_gcs" (Some {[ "sourcePath" := "/site/index.html" ]}))
      configured.
Proof.
  apply (deploy_to_gcs_ignores_other_arguments laptop
           {[ "sourcePath" := "/site/index.html" ]} "projectId" "other"
           configured).
  apply (bool_decide_unpack _). vm_compute. exact I.
Defined.

(** A call that finds its prefix in the request or in the store writes
    nothing and draws no random number. *)
Lemma deploy_to_gcs_keeps_store (env : Env) (given : gmap string string)
    (w : world) :
  held (dir (disk w)) ≠ JNull →
  truthy (requested_prefix given) = true
  ∨ truthy (field "subfolder" (held (dir (disk w)))) = true →
  disk (snd (callTool env (Request "deploy_to_gcs" (Some given)) w)) = disk w
  ∧ draws (snd (callTool env (Request "deploy_to_gcs" (Some given)) w))
    = draws w.
Proof.
  intros Hn Hprefix.
  rewrite callTool_deploy, deploy_to_gcs_resolves by exact Hn.
  destruct (truthy (requested_prefix given)) eqn:Hgiven.
  - rewrite (run_bind_return _ _ _ _ _
               (sticky_given env (requested_prefix given) _ Hgiven)).
    exact (keeps_disk_deployment env _ _ _ _
             (logged (resolution_log given (dir (disk w))) w)).
  - destruct Hprefix as [Hprefix|Hstored]; [discriminate Hprefix|].
    rewrite (run_bind_return _ _ _ _ _
               (sticky_stored env (requested_prefix given)
                  (logged (resolution_log given (dir (disk w))) w)
                  Hgiven Hn Hstored)).
    rewrite logged_logged.
    exact (keeps_disk_deployment env _ _ _ _
             (logged (resolution_log given (dir (disk w))
                      ++ load_log (dir (disk w))) w)).
Qed.



(** X7.  Once a subfolder is stored, no sequence of [deploy_to_gcs] calls
    changes the configuration: the stored subfolder, bucket and project
    stay what they are, whatever the calls ask for and however they
    end. *)
Theorem stored_subfolder_survives_deploys (env : Env)
    (calls : list (gmap string string)) (w : world) :
  held (dir (disk w)) ≠ JNull →
  truthy (field "subfolder" (held (dir (disk w)))) = true →
  disk (deploy_calls env calls w) = disk w.
Proof.
  revert w. induction calls as [|given calls IH]; intros w Hn Hstored.
  - reflexivity.
  - simpl.
    destruct (deploy_to_gcs_keeps_store env given w Hn (or_intror Hstored))
      as [Hdisk _].
    rewrite IH; [exact Hdisk| |]; rewrite Hdisk; assumption.
Qed.

Lemma stored_subfolder_witness :
  disk (deploy_calls laptop
          [ {[ "sourcePath" := "/site/index.html" ]};
            {[ "sourcePath" := "/nope"; "bucketName" := "b2" ]};
            ∅ ]
          configured)
  = disk configured.
Proof.
  apply (stored_subfolder_survives_deploys laptop
           [ {[ "sourcePath" := "/site/index.html" ]};
             {[ "sourcePath" := "/nope"; "bucketName" := "b2" ]};
             ∅ ]
           configured).
  - discriminate.
  - reflexivity.
Defined.

(** The handler from its pre-flight on, as one equation. *)
Lemma deployment_run (env : Env) (path : string)
    (bucketName projectId prefix : value) (w : world) (identity : string) :
  path ≠ "" → truthy bucketName = true → truthy projectId = true →
  getCurrentIdentity env w = (Return identity, logged [probe] w) →
  deployment env (Some path) bucketName projectId prefix w =
  let line := preflight path bucketName projectId identity prefix in
  match deploy env path bucketName prefix
          (logged [probe; ConsoleError line None] w) with
  | (Settled (Return publicUrls), w') =>
      (Return {| text := line +:+ nl +:+ nl +:+
                         "Successfully deployed to GCS. Public URLs:"
                         +:+ nl +:+ String.concat nl publicUrls;
                 isError := false |}, w')
  | (Settled (Throw error), w') =>
      (Return {| text := "Error deploying to GCS: " +:+ message_text error;
                 isError := true |}, w')
  | (Pending, w') => (Pending, w')
  end.
Proof.
  intros Hne Hb Hp Hid. rewrite deployment_ready by assumption.
  unfold try_catch. rewrite (run_bind_return _ _ _ _ _ Hid).
  rewrite run_bind. unfold emit at 1. cbv beta iota zeta.
  rewrite run_bind.
  change {| disk := disk (logged [probe] w);
            trace := trace (logged [probe] w) ++ _;
            draws := draws (logged [probe] w) |}
    with (logged [ConsoleError
                    (preflight path bucketName projectId identity prefix) None]
                 (logged [probe] w)).
  rewrite logged_logged. simpl app.
  destruct (deploy env path bucketName prefix _)
    as [[[publicUrls|error]|] w']; reflexivity.
Qed.



(** The rest of the handler never throws: it returns a response, or it
    stays pending with the identity probe. *)
Lemma deployment_never_throws (env : Env) (path : string)
    (bucketName projectId prefix : value) (w : world) (e : js_error) :
  path ≠ "" →
  fst (deployment env (Some path) bucketName projectId prefix w) ≠ Throw e.
Proof.
  intros Hne.
  destruct (truthy bucketName && truthy projectId) eqn:Hboth.
  - apply andb_prop in Hboth as [Hb Hp].
    rewrite deployment_ready by assumption. unfold try_catch.
    match goal with
    | |- context [match ?body w with _ => _ end] =>
        destruct (body w) as [[[answer|error]|] w']
    end; discriminate.
  - rewrite deployment_missing; [discriminate|apply truthy_str, Hne|exact Hboth].
Qed.

Lemma deployment_returns (env : Env) (path : string)
    (bucketName projectId prefix : value) (w : world) :
  path ≠ "" →
  c_error (probe_child env w) = None →
  ∃ answer w',
    deployment env (Some path) bucketName projectId prefix w
    = (Return answer, w').
Proof.
  intros Hne Hcloses.
  destruct (truthy bucketName && truthy projectId) eqn:Hboth.
  - apply andb_prop in Hboth as [Hb Hp].
    destruct (getCurrentIdentity_run env w Hcloses) as [identity Hid].
    rewrite (deployment_run env path bucketName projectId prefix w identity
               Hne Hb Hp Hid).
    cbv zeta.
    match goal with
    | |- context [deploy env path ?b ?f ?started] =>
        destruct (Settling.settles_deploy env path b f started)
          as ([publicUrls|error] & w' & ->)
    end; eauto.
  - rewrite deployment_missing; [eauto|apply truthy_str, Hne|exact Hboth].
Qed.



(** X10.  When a subfolder has to be generated and the save fails, the
    [deploy_to_gcs] call throws the error of the file system.  It has
    then written to the console only: no identity probe, no upload.  The
    stored record is as it was unless the write itself failed, with the
    file already opened; the file then holds what that write left. *)
Theorem deploy_to_gcs_throws_write_failure (env : Env)
    (given : gmap string string) (w : world) (stored : value) (e : js_error) :
  truthy (str (given !! "destinationPrefix")) = false →
  fst (getSubfolder w) = Return stored → truthy stored = false →
  write_failure (disk w) = Some e →
  ∃ w' added,
    callTool env (Request "deploy_to_gcs" (Some given)) w = (Throw e, w')
    ∧ trace w' = trace w ++ added
    ∧ forallb is_console added = true
    ∧ ((∀ e' remains, write_fault (disk w) ≠ Some (WriteFails e' remains)) →
       held (dir (disk w')) = held (dir (disk w)))
    ∧ (∀ e' remains,
         write_fault (disk w) = Some (WriteFails e' remains) →
         (dir (disk w) = NoDir → mkdir_fault (disk w) = None) →
         dir (disk w') = Dir (Data remains)).
Proof.
  intros Hprefix Hs Hsf Hfail.
  apply project_returns in Hs as [Hn Hs]. subst stored.
  rewrite callTool_deploy, deploy_to_gcs_resolves by exact Hn.
  assert (Hreq : truthy (requested_prefix given) = false).
  { unfold requested_prefix. rewrite Hprefix. reflexivity. }
  rewrite run_bind. unfold stickySubfolder, getSubfolder. rewrite Hreq.
  rewrite (run_bind_return _ _ _ _ _
             (project_run "subfolder"
                (logged (resolution_log given (dir (disk w))) w) Hn)).
  cbn [disk logged]. rewrite Hsf. unfold randomId at 1.
  rewrite run_bind. cbv beta iota. rewrite run_bind.
  match goal with
  | |- context [save ?config ?world] =>
      rewrite (save_fails config world e Hfail)
  end.
  eexists _, _. split; [reflexivity|]. split; [|split; [|split]].
  - simpl. rewrite <- !app_assoc. reflexivity.
  - rewrite !forallb_app, resolution_log_console, !load_log_console.
    reflexivity.
  - intros Hopen. simpl. apply after_failure_held, Hopen.
  - intros e' remains Hwrite Hmkdir. simpl.
    apply (after_failure_remains (disk w) e' remains Hwrite Hmkdir).
Qed.

(** The theorem on a directory that cannot be written to. *)
Lemma deploy_to_gcs_write_failure_witness :
  ∃ w',
    callTool laptop
      (Request "deploy_to_gcs" (Some {[ "sourcePath" := "/site/index.html" ]}))
      locked
    = (Throw read_only, w')
    ∧ held (dir (disk w')) = held (dir (disk locked)).
Proof.
  destruct (deploy_to_gcs_throws_write_failure laptop
              {[ "sourcePath" := "/site/index.html" ]} locked undefined
              read_only)
    as (w' & added & Hcall & _ & _ & Hkept & _);
    try reflexivity.
  exists w'. split; [exact Hcall|].
  apply Hkept. intros e' remains Hwrite. discriminate Hwrite.
Defined.

(** X13.  The identity probe never rejects, and starts [gcloud] once.  When
    its child closes, it resolves, and never with an empty identity: with
    the trimmed output of a child that closes with code 0 and prints more
    than white space, and with the same fixed text in every other case.
    When its child emits ['error'] instead, the probe stays pending. *)
Theorem identity_probe_never_rejects (env : Env) (w : world) :
  let proc := probe_child env w in
  (∀ e, fst (getCurrentIdentity env w) ≠ Throw e)
  ∧ snd (getCurrentIdentity env w) = logged [probe] w
  ∧ (c_error proc = None →
     ∃ identity,
       fst (getCurrentIdentity env w) = Return identity
       ∧ identity ≠ ""
       ∧ (c_code proc = Some 0%Z → trim (c_stdout proc) ≠ "" →
          identity = trim (c_stdout proc))
       ∧ (c_code proc ≠ Some 0%Z ∨ trim (c_stdout proc) = "" →
          identity = "unknown (could not determine identity)"))
  ∧ (c_error proc ≠ None → fst (getCurrentIdentity env w) = Pending).
Proof.
  intros proc. unfold getCurrentIdentity, spawn. rewrite run_bind.
  cbv beta iota. fold (probe_child env w). fold proc.
  destruct (c_error proc) as [err|].
  { repeat split; discriminate. }
  assert (Hfixed :
    (∀ e, @Settled string (Return unknown_identity) ≠ Throw e)
    ∧ logged [probe] w = logged [probe] w
    ∧ (@None js_error = None →
       ∃ identity,
         @Settled string (Return unknown_identity) = Return identity
         ∧ identity ≠ ""
         ∧ identity = "unknown (could not determine identity)")
    ∧ (@None js_error ≠ None →
       @Settled string (Return unknown_identity) = Pending)).
  { split; [discriminate|]. split; [reflexivity|]. split; [|congruence].
    intros _. exists unknown_identity. split; [reflexivity|].
    split; [discriminate|reflexivity]. }
  destruct Hfixed as (Hno & Hw & Hid & Hpending).
  destruct (c_code proc) as [[|code|code]|] eqn:Hcode.
  - destruct (String.eqb_spec (trim (c_stdout proc)) "") as [Hempty|Hout].
    + simpl. rewrite Hempty. simpl.
      split; [discriminate|]. split; [reflexivity|]. split; [|congruence].
      intros _. exists unknown_identity. split; [reflexivity|].
      split; [discriminate|]. split; [|reflexivity].
      intros _ Hout. contradiction.
    + simpl. destruct (String.eqb_spec (trim (c_stdout proc)) "");
        [contradiction|]. simpl.
      split; [discriminate|]. split; [reflexivity|]. split; [|congruence].
      intros _. exists (trim (c_stdout proc)). split; [reflexivity|].
      split; [exact Hout|]. split; [reflexivity|].
      intros [Hother|Hempty]; [destruct Hother; reflexivity|contradiction].
  - split; [exact Hno|]. split; [exact Hw|]. split; [|exact Hpending].
    intros Hnone. destruct (Hid Hnone) as (identity & Hrun & Hne & ->).
    eexists. split; [exact Hrun|]. split; [exact Hne|].
    split; [discriminate|reflexivity].
  - split; [exact Hno|]. split; [exact Hw|]. split; [|exact Hpending].
    intros Hnone. destruct (Hid Hnone) as (identity & Hrun & Hne & ->).
    eexists. split; [exact Hrun|]. split; [exact Hne|].
    split; [discriminate|reflexivity].
  - split; [exact Hno|]. split; [exact Hw|]. split; [|exact Hpending].
    intros Hnone. destruct (Hid Hnone) as (identity & Hrun & Hne & ->).
    eexists. split; [exact Hrun|]. split; [exact Hne|].
    split; [discriminate|reflexivity].
Qed.

(** The theorem on the sample account, and on a probe that cannot be
    started. *)
Lemma identity_probe_witness :
  fst (getCurrentIdentity laptop fresh) = Return "dev@example.com"
  ∧ fst (getCurrentIdentity shell_less fresh) = Pending.
Proof.
  destruct (identity_probe_never_rejects laptop fresh)
    as (_ & _ & Hcloses & _).
  destruct (identity_probe_never_rejects shell_less fresh)
    as (_ & _ & _ & Hpending).
  split; [|apply Hpending; discriminate].
  destruct (Hcloses eq_refl) as (identity & Hrun & _ & Hprinted & _).
  rewrite Hrun. f_equal. f_equal. apply Hprinted; [reflexivity|discriminate].
Defined.

(** X27.  When the child of the identity probe emits ['error'], a
    [deploy_to_gcs] call whose parameters resolve stays pending: it is
    answered neither with a response nor with a fault.  The probe is the
    only child process that it has started, and the object store has not
    been contacted. *)
Theorem unstarted_probe_leaves_call_pending (env : Env)
    (given : gmap string string) (path : string) (w : world) :
  given !! "sourcePath" = Some path → path ≠ "" →
  held (dir (disk w)) ≠ JNull →
  truthy (resolved_bucket given (dir (disk w))) = true →
  truthy (field "projectId" (held (dir (disk w)))) = true →
  prefix_available (requested_prefix given) (disk w) →
  (∀ seen,
     c_error (spawner env seen "gcloud" ["config"; "get-value"; "account"])
     ≠ None) →
  ∃ w' added,
    callTool env (Request "deploy_to_gcs" (Some given)) w = (Pending, w')
    ∧ trace w' = trace w ++ added
    ∧ filter is_store_call added = []
    ∧ filter is_spawn added = [probe].
Proof.
  intros Hpath Hne Hn Hb Hp Havailable Herror.
  rewrite callTool_deploy, deploy_to_gcs_resolves by exact Hn.
  destruct (sticky_returns env (requested_prefix given)
              (logged (resolution_log given (dir (disk w))) w) Hn Havailable)
    as (chosen & w1 & added & Hrun & Htrace & Hconsole).
  rewrite (run_bind_return _ _ _ _ _ Hrun), Hpath.
  rewrite deployment_ready by assumption.
  rewrite (run_try_pending _ _ _ _
             (run_bind_pending _ _ _ _
                (getCurrentIdentity_pending env w1 (Herror (trace w1))))).
  assert (Hall : forallb is_console
                   (resolution_log given (dir (disk w)) ++ added) = true).
  { rewrite forallb_app, resolution_log_console, Hconsole. reflexivity. }
  eexists _, ((resolution_log given (dir (disk w)) ++ added) ++ [probe]).
  split; [reflexivity|]. split; [|split].
  - unfold logged. simpl. rewrite Htrace. simpl.
    rewrite <- !app_assoc. reflexivity.
  - rewrite filter_app, console_is_no_store_call by exact Hall. reflexivity.
  - rewrite filter_app, console_is_no_spawn by exact Hall. reflexivity.
Qed.

(** The theorem on the configured laptop without a shell. *)
Lemma unstarted_probe_witness :
  ∃ w' added,
    callTool shell_less
      (Request "deploy_to_gcs" (Some {[ "sourcePath" := "/site/index.html" ]}))
      configured = (Pending, w')
    ∧ trace w' = trace configured ++ added
    ∧ filter is_store_call added = []
    ∧ filter is_spawn added = [probe].
Proof.
  apply (unstarted_probe_leaves_call_pending shell_less
           {[ "sourcePath" := "/site/index.html" ]} "/site/index.html"
           configured);
    try reflexivity; try discriminate.
  right. left. reflexivity.
Defined.



(** X5.  A subfolder set with [configure_gcs] is the one that the next
    [deploy_to_gcs] call without destination prefix deploys to; that call
    generates nothing and leaves the configuration as [configure_gcs]
    wrote it. *)
Theorem configured_subfolder_is_used (env : Env)
    (configuration given : gmap string string) (folder : string) (w : world) :
  configuration !! "subfolder" = Some folder → folder ≠ "" →
  truthy (str (given !! "destinationPrefix")) = false →
  write_failure (disk w) = None →
  readable (dir (disk w)) →
  let w1 := snd (callTool env (Request "configure_gcs" (Some configuration))
                   w) in
  ∃ w2,
    callTool env (Request "deploy_to_gcs" (Some given)) w1
    = deployment env (given !! "sourcePath")
        (resolved_bucket given (dir (disk w1)))
        (field "projectId" (held (dir (disk w1))))
        (Some (JStr folder)) w2
    ∧ disk w2 = disk w1 ∧ draws w2 = draws w1.
Proof.
  intros Hfolder Hne Hprefix Hw _ w1.
  assert (Hdisk : dir (disk w1)
                  = saved (dir (disk w)) (configured_fields configuration)).
  { unfold w1. rewrite callTool_configure. unfold configure_gcs, arg.
    rewrite !run_ret_bind.
    rewrite (run_bind_return _ _ _ _ _
               (save_run (configured_fields configuration) w Hw)).
    reflexivity. }
  assert (Hn : held (dir (disk w1)) ≠ JNull)
    by (rewrite Hdisk; apply saved_not_null).
  assert (Hstored : field "subfolder" (held (dir (disk w1)))
                    = Some (JStr folder)).
  { rewrite Hdisk, saved_field. unfold configured_fields.
    rewrite lookup_insert_ne, lookup_insert_ne, lookup_singleton_eq, Hfolder
      by discriminate.
    reflexivity. }
  assert (Hreq : truthy (requested_prefix given) = false).
  { unfold requested_prefix. rewrite Hprefix. reflexivity. }
  rewrite callTool_deploy, deploy_to_gcs_resolves by exact Hn.
  rewrite (run_bind_return _ _ _ _ _
             (sticky_stored env (requested_prefix given)
                (logged (resolution_log given (dir (disk w1))) w1) Hreq Hn
                ltac:(cbn [disk logged]; rewrite Hstored;
                      exact (truthy_str folder Hne)))).
  cbn [disk logged]. rewrite Hstored.
  eexists. split; [reflexivity|]. split; reflexivity.
Qed.

Lemma configured_subfolder_witness :
  let w1 := snd (callTool laptop
                   (Request "configure_gcs"
                      (Some {[ "bucketName" := "b1"; "projectId" := "p1";
                               "subfolder" := "docs" ]}))
                   fresh) in
  ∃ w2,
    callTool laptop
      (Request "deploy_to_gcs" (Some {[ "sourcePath" := "/site/index.html" ]}))
      w1
    = deployment laptop (Some "/site/index.html") (Some (JStr "b1"))
        (Some (JStr "p1")) (Some (JStr "docs")) w2
    ∧ disk w2 = disk w1 ∧ draws w2 = draws w1.
Proof.
  intros w1.
  assert (Hreadable : readable (dir (disk fresh)))
    by (intros e He; discriminate He).
  assert (Hfolder : "docs" ≠ "") by discriminate.
  exact (configured_subfolder_is_used laptop
           {[ "bucketName" := "b1"; "projectId" := "p1";
              "subfolder" := "docs" ]}
           {[ "sourcePath" := "/site/index.html" ]} "docs" fresh
           eq_refl Hfolder eq_refl eq_refl Hreadable).
Defined.

End HandlerFacts.
